(** * Local cluster composition: [distributed/deploy/local.py]

    A shallow embedding of [LocalCluster.__init__], [nprocesses_nthreads],
    the module-level weak set [clusters_to_close] and the exit hook
    [close_clusters], together with the properties of the topology they
    compute.

    Python integers are [Z] (unbounded, [//] is floor division, which is
    [Z.div]); [None]-able arguments are [option]; strings are [string];
    dictionaries are [gmap]; Python sets are [gset]; raised exceptions are the
    [Raise] branch of [Result]. *)

From Stdlib Require Import ZArith Lia List Ascii String.
From stdpp Require Import base option list gmap strings fin_maps fin_sets.

Local Open Scope Z_scope.

(** ** Exceptions and results *)

Inductive Exn : Type :=
  | ValueError          (* [min()] of an empty sequence *)
  | ZeroDivisionError   (* [//] or [/] by zero *)
  | Raised (what : string).  (* raised by a collaborator, e.g. [cluster.close] *)

Inductive Result (A : Type) : Type :=
  | Ok (a : A)
  | Raise (e : Exn).
Arguments Ok {A} a.
Arguments Raise {A} e.

#[global] Instance Result_ret : MRet Result := fun A a => Ok a.
#[global] Instance Result_bind : MBind Result := fun A B f m =>
  match m with
  | Ok a => f a
  | Raise e => Raise e
  end.

Module Py.

(** [a // b] on integers. *)
Definition floordiv (a b : Z) : Result Z :=
  if decide (b = 0) then Raise ZeroDivisionError else Ok (a / b).

(** [int(math.ceil(a / b))] with true division.  The quotient is taken
    exactly: for the core and worker counts at hand (below 2^52) the
    floating-point quotient of two integers is never rounded across an
    integer, so its ceiling is the ceiling of the rational [a / b]; from
    2^53 on the code rounds, and for huge quotients it raises
    [OverflowError]. *)
Definition ceildiv (a b : Z) : Result Z :=
  if decide (b = 0) then Raise ZeroDivisionError else Ok (- ((- a) / b)).

(** [range(lo, hi)] as the list it iterates over. *)
Definition range (lo hi : Z) : list Z :=
  (fun k : nat => lo + Z.of_nat k) <$> seq 0 (Z.to_nat (hi - lo)).

(** [min(iterable)]: raises [ValueError] on an empty iterable. *)
Definition min (l : list Z) : Result Z :=
  match l with
  | [] => Raise ValueError
  | x :: l' => Ok (foldl Z.min x l')
  end.

End Py.

(** ** The Resource Partitioner *)

(** Modelled from the spec: [factors] is imported from [dask.utils], which is
    not among the sources; it returns the set of the positive integer factors
    of [n].  It is written here the way that library enumerates them, the
    pairs [i], [n // i] for the divisors [i] up to the integer square root of
    [n]; [elem_of_factors] below shows that this is the set of all factors. *)
Definition factors (n : Z) : gset Z :=
  list_to_set
    (flat_map (fun i => if decide (n mod i = 0) then [i; n / i] else [])
              (Py.range 1 (Z.sqrt n + 1))).

(** The integers up to which the floating-point operations of the module
    ([math.sqrt(n)], [_ncores / n_workers]) are modelled exactly; far above
    any core count, and far below 2^1024, from where they raise
    [OverflowError]. *)
Definition float_exact_bound : Z := 2 ^ 52.

(** [f >= math.sqrt(n)] for a positive integer [f] and [n > 4]: on the reals
    this is [n <= f * f], and [math.sqrt] is correctly rounded, so the
    comparison of the integer [f] with it agrees for every [n] below
    [float_exact_bound]. *)
Definition ge_sqrt (f n : Z) : Prop := n ≤ f * f.
#[global] Instance ge_sqrt_dec f n : Decision (ge_sqrt f n) := Z.le_dec _ _.

(** [nprocesses_nthreads(n)], lines 223-248. *)
Definition nprocesses_nthreads (n : Z) : Result (Z * Z) :=
  processes ←
    (if decide (n ≤ 4) then Ok n
     else Py.min (filter (fun f => ge_sqrt f n) (elements (factors n))));
  threads ← Py.floordiv n processes;
  Ok (processes, threads).


(** ** Strings *)

Module PyStr.

(** [s.startswith(p)]. *)
Fixpoint startswith (p s : string) : bool :=
  match p, s with
  | EmptyString, _ => true
  | String a p', String b s' => if Ascii.eqb a b then startswith p' s' else false
  | String _ _, EmptyString => false
  end.

(** [s.endswith(suffix)]: some tail of [s] is [suffix]. *)
Fixpoint endswith (suffix s : string) : bool :=
  if String.eqb s suffix then true
  else match s with
       | EmptyString => false
       | String _ s' => endswith suffix s'
       end.

(** [sub in s]. *)
Fixpoint contains (sub s : string) : bool :=
  startswith sub s ||
  match s with
  | EmptyString => false
  | String _ s' => contains sub s'
  end.

(** [s.split(sep)] for a non-empty [sep] (every call in the module passes
    ["://"]): the occurrences of [sep] are found from the left and do not
    overlap.  [skip] counts the characters of a separator still to be passed
    over; [cur] is the piece being collected. *)
Fixpoint split_go (sep : string) (skip : nat) (cur : string) (s : string)
  : list string :=
  match s with
  | EmptyString => [cur]
  | String c s' =>
      match skip with
      | S k => split_go sep k cur s'
      | O =>
          if startswith sep s
          then cur :: split_go sep (String.length sep - 1) EmptyString s'
          else split_go sep 0 (cur +:+ String c EmptyString) s'
      end
  end.

Definition split (sep s : string) : list string := split_go sep 0 EmptyString s.

(** [l[0]] on the result of [split], which is never empty. *)
Definition first (l : list string) : string := default EmptyString (head l).

End PyStr.

(** ** Values, specifications and arguments *)

(** The classes a specification may name under ["cls"]. *)
Inductive Class : Type :=
  | Scheduler
  | Worker
  | Nanny
  | UserClass (name : string).

(** A [Security] object; it defines neither [__bool__] nor [__len__], so it is
    always truthy. *)
Inductive Security : Type := SecurityContext (name : string).

(** Python values that are only stored and handed on. *)
#[warnings="-register-all"]
Inductive Value : Type :=
  | VNone
  | VBool (b : bool)
  | VInt (n : Z)
  | VStr (s : string)
  | VList (l : list Value)
  | VDict (d : list (string * Value))
  | VSecurity (s : Security)
  | VObj (name : string).

Definition is_None (v : Value) : bool :=
  match v with VNone => true | _ => false end.

Definition truthy (v : Value) : bool :=
  match v with
  | VNone => false
  | VBool b => b
  | VInt n => negb (n =? 0)
  | VStr s => negb (String.eqb s EmptyString)
  | VList l => match l with [] => false | _ => true end
  | VDict d => match d with [] => false | _ => true end
  | VSecurity _ => true
  | VObj _ => true
  end.

(** [a or b]. *)
Definition py_or (a b : Value) : Value := if truthy a then a else b.

Definition of_option {A} (inj : A → Value) (o : option A) : Value :=
  match o with Some x => inj x | None => VNone end.

(** Truthiness of a string-or-[None] argument. *)
Definition nonempty (o : option string) : bool :=
  match o with
  | Some s => negb (String.eqb s EmptyString)
  | None => false
  end.

(** [{"cls": ..., "options": ...}]. *)
Record Spec : Type := mkSpec {
  cls : Class;
  options : gmap string Value
}.

(** The keyword arguments of [LocalCluster.__init__], lines 92-124. *)
Record Args : Type := mkArgs {
  n_workers : option Z;
  threads_per_worker : option Z;
  processes : bool;
  loop : Value;
  start : Value;
  host : option string;
  ip : option string;
  scheduler_port : Z;
  silence_logs : Value;
  dashboard_address : Value;
  worker_dashboard_address : Value;
  diagnostics_port : Value;
  services : Value;
  worker_services : Value;
  service_kwargs : Value;
  asynchronous : bool;
  security : option Security;
  protocol : option string;
  blocked_handlers : Value;
  interface : option string;
  worker_class : option Class;
  proxy_address : Value;
  proxy_port : Value;
  redis_endpoints : Value;
  num_lambda_invokers : Value;
  max_task_fanout : Value;
  chunk_large_tasks : Value;
  chunk_task_threshold : Value;
  num_chunks_for_large_tasks : Value;
  worker_kwargs : gmap string Value
}.

(** [LocalCluster(n_workers=, threads_per_worker=, processes=, host=, ip=,
    scheduler_port=, security=, protocol=, interface=, worker_class=)]: the
    arguments the constructor branches on as given, every other argument at
    its default ([logging.WARN] is 30). *)
Definition request (n_workers threads_per_worker : option Z)
    (processes : bool) (host ip : option string) (scheduler_port : Z)
    (security : option Security) (protocol interface : option string)
    (worker_class : option Class) : Args := {|
  n_workers := n_workers;
  threads_per_worker := threads_per_worker;
  processes := processes;
  loop := VNone;
  start := VNone;
  host := host;
  ip := ip;
  scheduler_port := scheduler_port;
  silence_logs := VInt 30;
  dashboard_address := VStr ":8787";
  worker_dashboard_address := VNone;
  diagnostics_port := VNone;
  services := VNone;
  worker_services := VNone;
  service_kwargs := VNone;
  asynchronous := false;
  security := security;
  protocol := protocol;
  blocked_handlers := VNone;
  interface := interface;
  worker_class := worker_class;
  proxy_address := VNone;
  proxy_port := VNone;
  redis_endpoints := VList [];
  num_lambda_invokers := VInt 16;
  max_task_fanout := VInt 10;
  chunk_large_tasks := VBool false;
  chunk_task_threshold := VInt 50;
  num_chunks_for_large_tasks := VNone;
  worker_kwargs := ∅
|}.

(** [LocalCluster()]: every argument at its default. *)
Definition default_args : Args :=
  request None None true None None 0 None None None None.

(** The request [a] with [host=h]. *)
Definition with_host (h : option string) (a : Args) : Args := {|
  n_workers := n_workers a;
  threads_per_worker := threads_per_worker a;
  processes := processes a;
  loop := loop a;
  start := start a;
  host := h;
  ip := ip a;
  scheduler_port := scheduler_port a;
  silence_logs := silence_logs a;
  dashboard_address := dashboard_address a;
  worker_dashboard_address := worker_dashboard_address a;
  diagnostics_port := diagnostics_port a;
  services := services a;
  worker_services := worker_services a;
  service_kwargs := service_kwargs a;
  asynchronous := asynchronous a;
  security := security a;
  protocol := protocol a;
  blocked_handlers := blocked_handlers a;
  interface := interface a;
  worker_class := worker_class a;
  proxy_address := proxy_address a;
  proxy_port := proxy_port a;
  redis_endpoints := redis_endpoints a;
  num_lambda_invokers := num_lambda_invokers a;
  max_task_fanout := max_task_fanout a;
  chunk_large_tasks := chunk_large_tasks a;
  chunk_task_threshold := chunk_task_threshold a;
  num_chunks_for_large_tasks := num_chunks_for_large_tasks a;
  worker_kwargs := worker_kwargs a
|}.

(** [LocalCluster(host="tls://foo")]. *)
Definition tls_foo_request : Args :=
  request None None true (Some "tls://foo") None 0 None None None None.

(** [LocalCluster(host="example.org", ip="10.0.0.7")]. *)
Definition ip_request : Args :=
  request None None true (Some "example.org") (Some "10.0.0.7") 0 None None
          None None.

(** [LocalCluster(n_workers=3)]. *)
Definition three_workers_request : Args :=
  request (Some 3) None true None None 0 None None None None.

(** ** The process state *)

(** Object identity of a cluster. *)
Definition Handle : Type := positive.

(** What a bootstrapped cluster holds. *)
Record Cluster : Type := mkCluster {
  scheduler_spec : Spec;
  worker_spec : gmap Z Spec;
  new_spec : Spec;
  target : option Z;
  closed : bool
}.

(** The mutable state of the process.  [clusters_to_close] is the live
    membership of the module-level [weakref.WeakSet()] of line 251. *)
Record Heap : Type := mkHeap {
  warned : list string;
  clusters_to_close : gset Handle;
  attrs : gmap (Handle * string) Value;
  clusters : gmap Handle Cluster
}.

(** Calls that leave the module, in the order they are made. *)
Inductive Event : Type :=
  | CallInit (self : Handle) (scheduler : Spec) (workers : gmap Z Spec)
             (worker : Spec) (loop : Value) (asynchronous : bool)
             (silence_logs : Value)
  | CallScale (self : Handle) (n : Z)
  | CallClose (cluster : Handle) (timeout : Z).

(** The heap, and the record of the outgoing calls made so far.  The record is
    kept by the semantics; no callee can alter it. *)
Record World : Type := mkWorld {
  heap : Heap;
  trace : list Event
}.

(** Computations that read and write the process state and may raise; what
    was written before an exception stays written. *)
Definition M (A : Type) : Type := World → World * Result A.

#[global] Instance M_ret : MRet M := fun A a w => (w, Ok a).
#[global] Instance M_bind : MBind M := fun A B f m w =>
  match m w with
  | (w', Ok a) => f a w'
  | (w', Raise e) => (w', Raise e)
  end.

(** A callee: it sees and changes the heap, and returns or raises. *)
Definition Callee : Type := Heap → Heap * Result unit.

(** Code that the module imports and calls. *)
Class Collaborators : Type := {
  (** [distributed.worker._ncores], the core count of the machine. *)
  _ncores : Z;
  (** [parse_memory_limit("auto", 1, n_workers)], taken to return: the
      call of line 168 passes the literal ["auto"], so nothing is parsed. *)
  parse_memory_limit : string → Z → Z → Value;
  (** [SpecCluster.__init__(self, scheduler=, workers=, worker=, loop=,
      asynchronous=, silence_logs=)]. *)
  SpecCluster_init :
    Handle → Spec → gmap Z Spec → Spec → Value → bool → Value → Callee;
  (** [self.scale(n)]. *)
  scale : Handle → Z → Callee;
  (** [cluster.close(timeout=)]. *)
  close : Handle → Z → Callee
}.

Module Eff.

Definition lift {A} (r : Result A) : M A := fun w => (w, r).

Definition when (b : bool) (m : M unit) : M unit :=
  if b then m else mret tt.

Definition modify (f : Heap → Heap) : M unit :=
  fun w => ({| heap := f (heap w); trace := trace w |}, Ok tt).

Definition gets {A} (f : Heap → A) : M A := fun w => (w, Ok (f (heap w))).

(** [warnings.warn(msg)]. *)
Definition warn (msg : string) : M unit :=
  modify (fun h => {| warned := warned h ++ [msg];
                      clusters_to_close := clusters_to_close h;
                      attrs := attrs h; clusters := clusters h |}).

(** [self.name = v]. *)
Definition setattr (self : Handle) (name : string) (v : Value) : M unit :=
  modify (fun h => {| warned := warned h;
                      clusters_to_close := clusters_to_close h;
                      attrs := <[(self, name) := v]> (attrs h);
                      clusters := clusters h |}).

(** An outgoing call: it is recorded, then the callee runs on the heap. *)
Definition call (ev : Event) (f : Callee) : M unit :=
  fun w =>
    let '(h', r) := f (heap w) in
    ({| heap := h'; trace := trace w ++ [ev] |}, r).

(** [for x in l: body(x)]. *)
Fixpoint for_each {A} (l : list A) (body : A → M unit) : M unit :=
  match l with
  | [] => mret tt
  | x :: l' => body x ;; for_each l' body
  end.

End Eff.

(** ** [LocalCluster.__init__] *)

(** Lines 125-127: [if ip is not None: host = ip]. *)
Definition alias_host (host ip : option string) : option string :=
  match ip with
  | Some v => Some v
  | None => host
  end.

(** Lines 129-134: [if diagnostics_port is not None: dashboard_address =
    diagnostics_port]. *)
Definition alias_dashboard (dashboard_address diagnostics_port : Value) : Value :=
  if is_None diagnostics_port then dashboard_address else diagnostics_port.

(** Lines 139-149, with [host] as it stands after line 127. *)
Definition resolve_protocol (processes : bool) (host : option string)
    (security : option Security) (scheduler_port : Z)
    (protocol : option string) : string :=
  let protocol :=
    match protocol with
    | Some p => p
    | None =>
        if nonempty host && PyStr.contains "://" (default EmptyString host)
        then PyStr.first (PyStr.split "://" (default EmptyString host))
        else if bool_decide (is_Some security) then "tls://"
        else if negb processes && (scheduler_port =? 0) then "inproc://"
        else "tcp://"
    end in
  if negb (PyStr.endswith "://" protocol) then protocol +:+ "://" else protocol.

(** Lines 151-152. *)
Definition default_host (host : option string) (protocol : string)
    (interface : option string) : option string :=
  if bool_decide (host = None) && negb (PyStr.startswith "inproc" protocol)
     && negb (nonempty interface)
  then Some "127.0.0.1"
  else host.

(** The protocol and the host of a request after lines 125-152. *)
Definition resolved_protocol (a : Args) : string :=
  resolve_protocol (processes a) (alias_host (host a) (ip a)) (security a)
                   (scheduler_port a) (protocol a).

Definition resolved_host (a : Args) : option string :=
  default_host (alias_host (host a) (ip a)) (resolved_protocol a) (interface a).

(** Line 210: [{i: worker for i in range(n_workers)}]; every slot holds the
    one [worker] dictionary. *)
Definition worker_slots (n_workers : Z) (worker : Spec) : gmap Z Spec :=
  list_to_map ((fun i => (i, worker)) <$> Py.range 0 n_workers).

(** What [__init__] has computed when it reaches line 212. *)
Record Plan : Type := mkPlan {
  plan_host : option string;
  plan_protocol : string;
  plan_n_workers : Z;
  plan_threads_per_worker : option Z;
  plan_scheduler : Spec;
  plan_worker : Spec;
  plan_workers : gmap Z Spec
}.

Section WithCollaborators.
Context `{C : Collaborators}.

(** Lines 156-166.  [n_workers] is [None] on no path that reaches the end. *)
Definition resolve_counts (processes : bool)
    (n_workers threads_per_worker : option Z) : Result (option Z * option Z) :=
  '(n_workers, threads_per_worker) ←
    match n_workers, threads_per_worker with
    | None, None =>
        if processes
        then '(p, t) ← nprocesses_nthreads _ncores; Ok (Some p, Some t)
        else Ok (Some 1, Some _ncores)
    | _, _ => Ok (n_workers, threads_per_worker)
    end;
  n_workers ←
    match n_workers, threads_per_worker with
    | None, Some t => q ← Py.floordiv _ncores t; Ok (Some (Z.max 1 q))
    | _, _ => Ok n_workers
    end;
  threads_per_worker ←
    match n_workers, threads_per_worker with
    | Some n, None =>
        if negb (n =? 0)
        then c ← Py.ceildiv _ncores n; Ok (Some (Z.max 1 c))
        else Ok None
    | _, _ => Ok threads_per_worker
    end;
  Ok (n_workers, threads_per_worker).

(** Lines 167-180: the worker options. *)
Definition worker_options (a : Args) (n_workers threads_per_worker : option Z)
    (protocol : string) : gmap string Value :=
  let kwargs := worker_kwargs a in
  let kwargs :=
    match n_workers with
    | Some n =>
        if negb (n =? 0) && bool_decide (kwargs !! "memory_limit" = None)
        then <["memory_limit" := parse_memory_limit "auto" 1 n]> kwargs
        else kwargs
    | None => kwargs
    end in
  (list_to_map
     [ ("ncores", of_option VInt threads_per_worker);
       ("services", py_or (worker_services a) (VDict []));
       ("dashboard_address", worker_dashboard_address a);
       ("interface", of_option VStr (interface a));
       ("protocol", VStr protocol);
       ("security", of_option VSecurity (security a));
       ("silence_logs", silence_logs a) ] : gmap string Value) ∪ kwargs.

(** Lines 182-203: the scheduler specification. *)
Definition scheduler_of (a : Args) (host : option string) (protocol : string)
  : Spec :=
  {| cls := Scheduler;
     options := list_to_map
       [ ("host", of_option VStr host);
         ("services", py_or (services a) (VDict []));
         ("service_kwargs", service_kwargs a);
         ("security", of_option VSecurity (security a));
         ("port", VInt (scheduler_port a));
         ("interface", of_option VStr (interface a));
         ("protocol", VStr protocol);
         ("dashboard_address",
            alias_dashboard (dashboard_address a) (diagnostics_port a));
         ("blocked_handlers", blocked_handlers a);
         ("proxy_address", proxy_address a);
         ("proxy_port", proxy_port a);
         ("redis_endpoints", redis_endpoints a);
         ("num_lambda_invokers", num_lambda_invokers a);
         ("chunk_large_tasks", chunk_large_tasks a);
         ("chunk_task_threshold", chunk_task_threshold a);
         ("max_task_fanout", max_task_fanout a);
         ("num_chunks_for_large_tasks", num_chunks_for_large_tasks a) ] |}.

(** Lines 205-208: [worker_class or (Worker if not processes else Nanny)]; a
    class object is truthy. *)
Definition worker_of (a : Args) (opts : gmap string Value) : Spec :=
  {| cls := match worker_class a with
            | Some c => c
            | None => if negb (processes a) then Worker else Nanny
            end;
     options := opts |}.

(** Lines 125-210 without the warnings and attribute writes: the values
    [__init__] hands to [SpecCluster.__init__] and [scale], or the exception
    raised on the way.  [range(None)] would be a [TypeError]; [n_workers] is
    never [None] there, see [resolve_counts]. *)
Definition plan (a : Args) : Result Plan :=
  let host := alias_host (host a) (ip a) in
  let protocol :=
    resolve_protocol (processes a) host (security a) (scheduler_port a)
                     (protocol a) in
  let host := default_host host protocol (interface a) in
  '(n_workers, threads_per_worker) ←
    resolve_counts (processes a) (n_workers a) (threads_per_worker a);
  let opts := worker_options a n_workers threads_per_worker protocol in
  let scheduler := scheduler_of a host protocol in
  let worker := worker_of a opts in
  n ← match n_workers with
      | Some n => Ok n
      | None => Raise (Raised "TypeError")
      end;
  Ok {| plan_host := host;
        plan_protocol := protocol;
        plan_n_workers := n;
        plan_threads_per_worker := threads_per_worker;
        plan_scheduler := scheduler;
        plan_worker := worker;
        plan_workers := worker_slots n worker |}.

End WithCollaborators.

Module LocalCluster.

(** [LocalCluster.__init__(self, **a)], lines 92-220. *)
Definition __init__ `{C : Collaborators} (self : Handle) (a : Args) : M unit :=
  Eff.when (bool_decide (is_Some (ip a)))
           (Eff.warn "The ip keyword has been moved to host") ;;
  Eff.when (negb (is_None (diagnostics_port a)))
           (Eff.warn "diagnostics_port has been deprecated. Please use `dashboard_address=` instead") ;;
  Eff.setattr self "status" VNone ;;
  Eff.setattr self "processes" (VBool (processes a)) ;;
  p ← Eff.lift (plan a);
  Eff.call (CallInit self (plan_scheduler p) (plan_workers p) (plan_worker p)
                     (loop a) (asynchronous a) (silence_logs a))
           (SpecCluster_init self (plan_scheduler p) (plan_workers p)
                             (plan_worker p) (loop a) (asynchronous a)
                             (silence_logs a)) ;;
  Eff.call (CallScale self (plan_n_workers p)) (scale self (plan_n_workers p)).

End LocalCluster.

(** ** The exit hook *)

(** [close_clusters()], lines 254-257: the loop runs over [list(...)] of the
    weak set, a snapshot of its live members. *)
Definition close_clusters `{C : Collaborators} : M unit :=
  snapshot ← Eff.gets (fun h => elements (clusters_to_close h));
  Eff.for_each snapshot (fun cluster =>
    Eff.call (CallClose cluster 10) (close cluster 10)).

(** ** Vocabulary of the properties *)

(** A callee that leaves the membership of [clusters_to_close] as it is. *)
Definition keeps_registry (f : Callee) : Prop :=
  ∀ h, clusters_to_close (f h).1 = clusters_to_close h.

(** A computation that leaves the membership of [clusters_to_close] as it is,
    whether it returns or raises. *)
Definition preserves_registry {A} (m : M A) : Prop :=
  ∀ w, clusters_to_close (heap (m w).1) = clusters_to_close (heap w).

(** The calls [cluster.close(timeout=10)] for the clusters of [l], in order. *)
Definition close_calls (l : list Handle) : list Event :=
  (fun cluster => CallClose cluster 10) <$> l.

(** ** The collaborators as the specification describes them *)

Module Described.

Definition empty_heap : Heap :=
  {| warned := []; clusters_to_close := ∅; attrs := ∅; clusters := ∅ |}.

Definition empty_world : World := {| heap := empty_heap; trace := [] |}.

Definition with_clusters (f : gmap Handle Cluster → gmap Handle Cluster)
    (h : Heap) : Heap :=
  {| warned := warned h; clusters_to_close := clusters_to_close h;
     attrs := attrs h; clusters := f (clusters h) |}.

(** Modelled from the spec: the memory-limit policy collaborator
    ([parse_memory_limit] of [distributed/worker.py], not among the sources):
    for ["auto"] it returns the share of the total system memory of one
    process when the memory is divided evenly across the processes. *)
Definition parse_memory_limit (total_memory : Z) (limit : string)
    (ncores total_cores : Z) : Value :=
  VInt (total_memory * ncores / total_cores).

(** Modelled from the spec: the cluster bootstrapping collaborator
    ([SpecCluster.__init__] of [distributed/deploy/spec.py], not among the
    sources) receives the scheduler spec and the per-slot worker spec map and
    yields a cluster handle with [close] and [scale] operations.  This
    stand-in records the specifications under the handle.  The spec does
    not say which component registers the handle with the Lifecycle
    Registry; the stand-in does not touch [clusters_to_close], and nothing
    below that is stated of the code in general rests on that choice: it is
    only used to show that hypotheses on the collaborators can be met. *)
Definition SpecCluster_init (self : Handle) (scheduler : Spec)
    (workers : gmap Z Spec) (worker : Spec) (loop : Value)
    (asynchronous : bool) (silence_logs : Value) : Callee :=
  fun h =>
    (with_clusters
       (insert self {| scheduler_spec := scheduler; worker_spec := workers;
                       new_spec := worker; target := None; closed := false |})
       h,
     Ok tt).

(** Modelled from the spec: [scale(n)] of the cluster handle
    ([distributed/deploy/spec.py], not among the sources) sets the number of
    workers the cluster is to reach. *)
Definition scale (self : Handle) (n : Z) : Callee :=
  fun h =>
    (with_clusters
       (alter (fun c => {| scheduler_spec := scheduler_spec c;
                           worker_spec := worker_spec c;
                           new_spec := new_spec c;
                           target := Some n; closed := closed c |}) self)
       h,
     Ok tt).

(** Modelled from the spec: [close(timeout)] of the cluster handle
    ([distributed/deploy/spec.py], not among the sources) closes the cluster
    or fails; the handles in [failing] are those whose close raises. *)
Definition close (failing : gset Handle) (cluster : Handle) (timeout : Z)
  : Callee :=
  fun h =>
    if bool_decide (cluster ∈ failing)
    then (h, Raise (Raised "CloseFailure"))
    else
      (with_clusters
         (alter (fun c => {| scheduler_spec := scheduler_spec c;
                             worker_spec := worker_spec c;
                             new_spec := new_spec c;
                             target := target c; closed := true |}) cluster)
         h,
       Ok tt).

(** A machine with [ncores] cores and [total_memory] bytes, on which closing
    the clusters in [failing] raises. *)
Definition machine (ncores total_memory : Z) (failing : gset Handle)
  : Collaborators :=
  Build_Collaborators ncores (parse_memory_limit total_memory)
                      SpecCluster_init scale (close failing).

(** A process in which the clusters 1 and 2 are registered. *)
Definition two_registered : World :=
  {| heap := {| warned := []; clusters_to_close := {[ 1%positive; 2%positive ]};
                attrs := ∅; clusters := ∅ |};
     trace := [] |}.

End Described.

(** Eight cores and 16 GB; every close succeeds. *)
Definition eight_cores : Collaborators :=
  Described.machine 8 16000000000 ∅.

(** Eight cores and 16 GB; closing cluster 2 raises. *)
Definition eight_cores_close_fails : Collaborators :=
  Described.machine 8 16000000000 {[ 2%positive ]}.

(** ** Vocabulary of the further properties *)

(** The request [a] with [dashboard_address=], [diagnostics_port=] and the
    extra keyword arguments [**kwargs] replaced. *)
Definition with_passthrough (dashboard diagnostics : Value)
    (kwargs : gmap string Value) (a : Args) : Args := {|
  n_workers := n_workers a;
  threads_per_worker := threads_per_worker a;
  processes := processes a;
  loop := loop a;
  start := start a;
  host := host a;
  ip := ip a;
  scheduler_port := scheduler_port a;
  silence_logs := silence_logs a;
  dashboard_address := dashboard;
  worker_dashboard_address := worker_dashboard_address a;
  diagnostics_port := diagnostics;
  services := services a;
  worker_services := worker_services a;
  service_kwargs := service_kwargs a;
  asynchronous := asynchronous a;
  security := security a;
  protocol := protocol a;
  blocked_handlers := blocked_handlers a;
  interface := interface a;
  worker_class := worker_class a;
  proxy_address := proxy_address a;
  proxy_port := proxy_port a;
  redis_endpoints := redis_endpoints a;
  num_lambda_invokers := num_lambda_invokers a;
  max_task_fanout := max_task_fanout a;
  chunk_large_tasks := chunk_large_tasks a;
  chunk_task_threshold := chunk_task_threshold a;
  num_chunks_for_large_tasks := num_chunks_for_large_tasks a;
  worker_kwargs := kwargs
|}.

(** [LocalCluster(threads_per_worker=0)]. *)
Definition zero_threads_request : Args :=
  request None (Some 0) true None None 0 None None None None.

(** [LocalCluster(n_workers=0)]. *)
Definition zero_workers_request : Args :=
  request (Some 0) None true None None 0 None None None None.

(** [LocalCluster(n_workers=3, threads_per_worker=5)]. *)
Definition both_counts_request : Args :=
  request (Some 3) (Some 5) true None None 0 None None None None.

(** The named keyword parameters of [__init__], lines 94-122.  Python binds
    a keyword argument of one of these names to the parameter, so none of
    them is ever a key of [**worker_kwargs]. *)
Definition named_parameters : list string :=
  ["n_workers"; "threads_per_worker"; "processes"; "loop"; "start"; "host";
   "ip"; "scheduler_port"; "silence_logs"; "dashboard_address";
   "worker_dashboard_address"; "diagnostics_port"; "services";
   "worker_services"; "service_kwargs"; "asynchronous"; "security";
   "protocol"; "blocked_handlers"; "interface"; "worker_class";
   "proxy_address"; "proxy_port"; "redis_endpoints"; "num_lambda_invokers";
   "max_task_fanout"; "chunk_large_tasks"; "chunk_task_threshold";
   "num_chunks_for_large_tasks"].

(** A request as a call can produce it: no named parameter among the extra
    keyword arguments. *)
Definition callable (a : Args) : Prop :=
  ∀ k, k ∈ named_parameters → worker_kwargs a !! k = None.

(** [LocalCluster(ncores=64, resources=2)]: neither name is a parameter,
    so both are extra keyword arguments. *)
Definition extra_kwargs_request : Args :=
  with_passthrough (VStr ":8787") VNone
    (<["ncores" := VInt 64]> (<["resources" := VInt 2]> ∅))
    default_args.

(** [LocalCluster(dashboard_address=":8787", diagnostics_port=9999)]. *)
Definition diagnostics_request : Args :=
  with_passthrough (VStr ":8787") (VInt 9999) ∅ default_args.

(** The messages lines 125-134 pass to [warnings.warn], in order. *)
Definition init_warnings (a : Args) : list string :=
  (if bool_decide (is_Some (ip a))
   then ["The ip keyword has been moved to host"] else [])
  ++ (if negb (is_None (diagnostics_port a))
      then ["diagnostics_port has been deprecated. Please use `dashboard_address=` instead"]
      else []).

(** The process state when [__init__] has passed line 137: the warnings
    are emitted and [self.status], [self.processes] are written. *)
Definition after_prelude (self : Handle) (a : Args) (w : World) : World :=
  {| heap :=
       {| warned := warned (heap w) ++ init_warnings a;
          clusters_to_close := clusters_to_close (heap w);
          attrs := <[(self, "processes") := VBool (processes a)]>
                     (<[(self, "status") := VNone]> (attrs (heap w)));
          clusters := clusters (heap w) |};
     trace := trace w |}.

(** A callee that leaves the emitted warnings as they are. *)
Definition keeps_warnings (f : Callee) : Prop :=
  ∀ h, warned (f h).1 = warned h.

(** The keys that lines 170-180 write into the worker options. *)
Definition resolved_worker_keys : list string :=
  ["ncores"; "services"; "dashboard_address"; "interface"; "protocol";
   "security"; "silence_logs"].

(** * Properties *)

(** ** Integers, ranges and minima *)

Lemma elem_of_range (lo hi x : Z) : x ∈ Py.range lo hi ↔ lo ≤ x < hi.
Proof.
  unfold Py.range. rewrite list_elem_of_fmap. split.
  - intros (k & -> & Hk). apply elem_of_seq in Hk. lia.
  - intros Hx. exists (Z.to_nat (x - lo)). split; [lia|].
    apply elem_of_seq. lia.
Qed.


Lemma foldl_min_le (l : list Z) (x : Z) : foldl Z.min x l ≤ x.
Proof.
  revert x. induction l as [|y l IH]; intros x; simpl; [lia|].
  specialize (IH (Z.min x y)). lia.
Qed.

Lemma foldl_min_lower (l : list Z) (x y : Z) : y ∈ l → foldl Z.min x l ≤ y.
Proof.
  revert x. induction l as [|z l IH]; intros x Hy; simpl.
  - by apply elem_of_nil in Hy.
  - apply elem_of_cons in Hy as [->|Hy].
    + pose proof (foldl_min_le l (Z.min x z)). lia.
    + by apply IH.
Qed.

Lemma foldl_min_elem (l : list Z) (x : Z) :
  foldl Z.min x l = x ∨ foldl Z.min x l ∈ l.
Proof.
  revert x. induction l as [|z l IH]; intros x; simpl; [by left|].
  destruct (IH (Z.min x z)) as [Heq|Hin].
  - rewrite Heq. destruct (Z.min_spec x z) as [[_ ->]|[_ ->]].
    + by left.
    + right. apply elem_of_cons. by left.
  - right. apply elem_of_cons. by right.
Qed.

(** [min] returns a least element of a non-empty list. *)
Lemma min_least (l : list Z) (m : Z) :
  Py.min l = Ok m → m ∈ l ∧ ∀ x, x ∈ l → m ≤ x.
Proof.
  destruct l as [|x l]; simpl; [discriminate|].
  intros [= <-]. split.
  - destruct (foldl_min_elem l x) as [->|Hin]; apply elem_of_cons; auto.
  - intros y Hy. apply elem_of_cons in Hy as [->|Hy].
    + apply foldl_min_le.
    + by apply foldl_min_lower.
Qed.

Lemma min_nonempty (l : list Z) (x : Z) : x ∈ l → ∃ m, Py.min l = Ok m.
Proof.
  destruct l as [|y l]; simpl; [intros H; by apply elem_of_nil in H|eauto].
Qed.

(** ** The factors of a positive integer *)

Lemma factors_sound (n d : Z) : 1 ≤ n → d ∈ factors n → 0 < d ∧ (d | n).
Proof.
  intros Hn. unfold factors. rewrite elem_of_list_to_set, list_elem_of_In.
  rewrite in_flat_map. intros (i & Hi & Hd).
  apply list_elem_of_In, elem_of_range in Hi.
  destruct (decide (n mod i = 0)) as [Hmod|]; [|by destruct Hd].
  assert (Hni : n = i * (n / i)) by (apply Z.div_exact; lia).
  simpl in Hd. destruct Hd as [<-|[<-|[]]].
  - split; [lia|]. exists (n / i). lia.
  - split; [nia|]. exists i. lia.
Qed.

Lemma factors_complete (n d : Z) : 1 ≤ n → 0 < d → (d | n) → d ∈ factors n.
Proof.
  intros Hn Hd [e He]. unfold factors.
  rewrite elem_of_list_to_set, list_elem_of_In, in_flat_map.
  pose proof (Z.sqrt_spec n ltac:(lia)) as [Hlo Hhi].
  assert (0 < e) by nia.
  destruct (decide (d ≤ Z.sqrt n)) as [Hsmall|Hbig].
  - exists d. split; [apply list_elem_of_In, elem_of_range; lia|].
    assert (n mod d = 0) as -> by (subst n; apply Z.mod_mul; lia).
    simpl. by left.
  - assert (e ≤ Z.sqrt n) by nia.
    exists e. split; [apply list_elem_of_In, elem_of_range; lia|].
    assert (n mod e = 0) as ->
      by (subst n; rewrite Z.mul_comm; apply Z.mod_mul; lia).
    simpl. right. left. subst n. rewrite Z.mul_comm. apply Z.div_mul. lia.
Qed.

(** [factors n] is the set of the positive divisors of [n]. *)
Lemma elem_of_factors (n d : Z) :
  1 ≤ n → d ∈ factors n ↔ 0 < d ∧ (d | n).
Proof.
  intros Hn. split; [by apply factors_sound|].
  intros [? ?]. by apply factors_complete.
Qed.

(** ** The Resource Partitioner *)

Lemma floordiv_ok (a b : Z) : b ≠ 0 → Py.floordiv a b = Ok (a / b).
Proof. intros Hb. unfold Py.floordiv. by destruct (decide (b = 0)). Qed.

(** Above four cores the process count is the least factor at or above the
    square root. *)
Lemma nprocesses_large (n : Z) :
  4 < n →
  ∃ p, nprocesses_nthreads n = Ok (p, n / p)
       ∧ 0 < p ∧ (p | n) ∧ ge_sqrt p n
       ∧ ∀ d, 0 < d → (d | n) → ge_sqrt d n → p ≤ d.
Proof.
  intros Hn. unfold nprocesses_nthreads.
  destruct (decide (n ≤ 4)) as [?|_]; [lia|].
  set (l := filter (fun f => ge_sqrt f n) (elements (factors n))).
  assert (Hl : ∀ d, d ∈ l ↔ ge_sqrt d n ∧ 0 < d ∧ (d | n)).
  { intros d. unfold l.
    rewrite list_elem_of_filter, elem_of_elements, elem_of_factors by lia.
    tauto. }
  destruct (min_nonempty l n) as [p Hp].
  { apply Hl. unfold ge_sqrt. split; [nia|]. split; [lia|]. exists 1; lia. }
  rewrite Hp. simpl.
  apply min_least in Hp as [Hin Hleast].
  apply Hl in Hin as (Hsq & Hpos & Hdiv).
  exists p. rewrite floordiv_ok by lia. simpl.
  repeat split; try done.
  intros d Hd Hdn Hdsq. apply Hleast, Hl. auto.
Qed.

(** Every positive core count is split into a process count and a thread
    count whose product it is. *)
Lemma nprocesses_positive (n : Z) :
  1 ≤ n →
  ∃ p t, nprocesses_nthreads n = Ok (p, t)
    ∧ p * t = n ∧ 1 ≤ p ∧ 1 ≤ t
    ∧ (n ≤ 4 → p = n ∧ t = 1)
    ∧ (4 < n →
         (p | n) ∧ ge_sqrt p n
         ∧ (∀ d, 0 < d → (d | n) → ge_sqrt d n → p ≤ d)
         ∧ t = n / p).
Proof.
  intros Hn. destruct (decide (n ≤ 4)) as [Hsmall|Hlarge].
  - exists n, 1. unfold nprocesses_nthreads.
    destruct (decide (n ≤ 4)) as [_|?]; [|lia]. simpl.
    rewrite floordiv_ok by lia. rewrite Z.div_same by lia. simpl.
    repeat split; lia.
  - destruct (nprocesses_large n) as (p & Hrun & Hpos & Hdiv & Hsq & Hleast);
      [lia|].
    exists p, (n / p). destruct Hdiv as [e He].
    assert (Hq : n / p = e) by (subst n; apply Z.div_mul; lia).
    rewrite Hq in *. repeat split; try done; try lia; try nia.
    exists e; lia.
Qed.

(** C1.  For every positive core count [n], [nprocesses_nthreads n] returns
    a pair [(p, t)] with [p * t = n], [p >= 1] and [t >= 1]; up to four cores
    it is [(n, 1)]; above four cores [p] is the smallest factor of [n] that is
    at least the square root of [n], and [t = n / p].  In particular
    1 gives (1, 1), 4 gives (4, 1) and 32 gives (8, 4). *)
Theorem nprocesses_nthreads_spec :
  (∀ n : Z, 1 ≤ n →
     ∃ p t, nprocesses_nthreads n = Ok (p, t)
       ∧ p * t = n ∧ 1 ≤ p ∧ 1 ≤ t
       ∧ (n ≤ 4 → p = n ∧ t = 1)
       ∧ (4 < n →
            (p | n) ∧ ge_sqrt p n
            ∧ (∀ d, 0 < d → (d | n) → ge_sqrt d n → p ≤ d)
            ∧ t = n / p))
  ∧ nprocesses_nthreads 1 = Ok (1, 1)
  ∧ nprocesses_nthreads 4 = Ok (4, 1)
  ∧ nprocesses_nthreads 32 = Ok (8, 4).
Proof.
  split; [exact nprocesses_positive|].
  split; [|split]; vm_compute; reflexivity.
Qed.

(** Six cores satisfy the premise. *)
Lemma nprocesses_nthreads_spec_witness :
  1 ≤ 6 ∧ ∃ p t, nprocesses_nthreads 6 = Ok (p, t)
       ∧ p * t = 6 ∧ 1 ≤ p ∧ 1 ≤ t
       ∧ (6 ≤ 4 → p = 6 ∧ t = 1)
       ∧ (4 < 6 →
            (p | 6) ∧ ge_sqrt p 6
            ∧ (∀ d, 0 < d → (d | 6) → ge_sqrt d 6 → p ≤ d)
            ∧ t = 6 / p).
Proof.
  split; [lia|]. apply (proj1 nprocesses_nthreads_spec 6). lia.
Defined.

(** ** Strings *)

Lemma append_nil (b : string) : EmptyString +:+ b = b.
Proof. reflexivity. Qed.

Lemma append_cons (x : ascii) (a b : string) :
  String x a +:+ b = String x (a +:+ b).
Proof. reflexivity. Qed.

Lemma append_assoc (a b c : string) : (a +:+ b) +:+ c = a +:+ b +:+ c.
Proof.
  induction a as [|x a IH]; [done|]. by rewrite !append_cons, IH.
Qed.

Lemma append_length (a b : string) :
  String.length (a +:+ b) = (String.length a + String.length b)%nat.
Proof.
  induction a as [|x a IH]; [done|]. rewrite append_cons. simpl. by rewrite IH.
Qed.

Lemma append_empty_r (a : string) : a +:+ EmptyString = a.
Proof.
  induction a as [|x a IH]; [done|]. by rewrite append_cons, IH.
Qed.

Lemma startswith_append (p r : string) : PyStr.startswith p (p +:+ r) = true.
Proof.
  induction p as [|x p IH]; [done|].
  rewrite append_cons. simpl. by rewrite Ascii.eqb_refl.
Qed.

Lemma startswith_inv (p s : string) :
  PyStr.startswith p s = true → ∃ r, s = p +:+ r.
Proof.
  revert s. induction p as [|x p IH]; intros s; simpl.
  - intros _. by exists s.
  - destruct s as [|y s]; [done|].
    destruct (Ascii.eqb_spec x y) as [->|]; [|done].
    intros Hp. destruct (IH _ Hp) as [r ->]. by exists r.
Qed.

Lemma endswith_append (a suffix : string) :
  PyStr.endswith suffix (a +:+ suffix) = true.
Proof.
  induction a as [|x a IH].
  - rewrite append_nil. destruct suffix as [|y t]; [done|].
    change (PyStr.endswith (String y t) (String y t))
      with (if String.eqb (String y t) (String y t) then true
            else PyStr.endswith (String y t) t).
    by rewrite String.eqb_refl.
  - rewrite append_cons.
    change (PyStr.endswith suffix (String x (a +:+ suffix)))
      with (if String.eqb (String x (a +:+ suffix)) suffix then true
            else PyStr.endswith suffix (a +:+ suffix)).
    rewrite IH. by destruct (String.eqb _ _).
Qed.

Lemma endswith_inv (suffix s : string) :
  PyStr.endswith suffix s = true → ∃ a, s = a +:+ suffix.
Proof.
  induction s as [|x s IH].
  - destruct suffix; [by exists EmptyString|done].
  - change (PyStr.endswith suffix (String x s))
      with (if String.eqb (String x s) suffix then true
            else PyStr.endswith suffix s).
    destruct (String.eqb_spec (String x s) suffix) as [<-|].
    + by exists EmptyString.
    + intros Hs. destruct (IH Hs) as [a ->]. by exists (String x a).
Qed.

(** The first piece of [split] is what stands before the leftmost
    occurrence of the separator. *)
Lemma split_go_first (sep s cur : string) :
  PyStr.contains sep s = true →
  ∃ pre rest,
    s = pre +:+ sep +:+ rest
    ∧ head (PyStr.split_go sep 0 cur s) = Some (cur +:+ pre)
    ∧ ∀ pre' rest', s = pre' +:+ sep +:+ rest' →
        (String.length pre ≤ String.length pre')%nat.
Proof.
  revert cur. induction s as [|c s IH]; intros cur; simpl.
  - rewrite orb_false_r. intros Hp.
    destruct (startswith_inv _ _ Hp) as [r Hr].
    destruct sep; [|done]. exists EmptyString, EmptyString.
    rewrite !append_empty_r. split; [done|]. split; [done|].
    intros; simpl; lia.
  - destruct (PyStr.startswith sep (String c s)) eqn:Hp; simpl.
    + intros _. destruct (startswith_inv _ _ Hp) as [r Hr].
      exists EmptyString, r. rewrite !append_empty_r.
      split; [done|]. split; [done|]. intros; simpl; lia.
    + intros Hc.
      destruct (IH (cur +:+ String c EmptyString) Hc)
        as (pre & rest & Hs & Hhd & Hfirst).
      exists (String c pre), rest. rewrite append_cons.
      split; [by rewrite Hs|].
      split; [by rewrite Hhd, append_assoc|].
      intros pre' rest' Heq. destruct pre' as [|c' pre'].
      * rewrite append_nil in Heq. rewrite Heq, startswith_append in Hp. done.
      * rewrite append_cons in Heq. injection Heq as -> Heq. simpl.
        specialize (Hfirst _ _ Heq). lia.
Qed.

Lemma split_first (sep s : string) :
  PyStr.contains sep s = true →
  ∃ pre rest,
    s = pre +:+ sep +:+ rest
    ∧ PyStr.first (PyStr.split sep s) = pre
    ∧ ∀ pre' rest', s = pre' +:+ sep +:+ rest' →
        (String.length pre ≤ String.length pre')%nat.
Proof.
  intros Hc.
  destruct (split_go_first sep s EmptyString Hc) as (pre & rest & ? & Hhd & ?).
  exists pre, rest. unfold PyStr.first, PyStr.split. by rewrite Hhd.
Qed.

(** What stands before the leftmost non-empty separator does not end with
    the separator. *)
Lemma first_piece_no_suffix (sep pre rest : string) :
  sep ≠ EmptyString →
  (∀ pre' rest', pre +:+ sep +:+ rest = pre' +:+ sep +:+ rest' →
     (String.length pre ≤ String.length pre')%nat) →
  PyStr.endswith sep pre = false.
Proof.
  intros Hsep Hfirst. destruct (PyStr.endswith sep pre) eqn:He; [|done].
  destruct (endswith_inv _ _ He) as [a ->].
  specialize (Hfirst a (sep +:+ rest)). rewrite !append_assoc in Hfirst.
  specialize (Hfirst eq_refl). rewrite append_length in Hfirst.
  destruct sep; [done|]. simpl in Hfirst. lia.
Qed.

(** ** What [__init__] hands on *)

Section Plan.
Context `{C : Collaborators}.

Lemma scheduler_host (a : Args) (h : option string) (p : string) :
  options (scheduler_of a h p) !! "host" = Some (of_option VStr h).
Proof. reflexivity. Qed.

Lemma scheduler_protocol (a : Args) (h : option string) (p : string) :
  options (scheduler_of a h p) !! "protocol" = Some (VStr p).
Proof. reflexivity. Qed.

Lemma worker_protocol (a : Args) (n t : option Z) (p : string) :
  worker_options a n t p !! "protocol" = Some (VStr p).
Proof. unfold worker_options. by apply lookup_union_Some_l. Qed.

Lemma worker_ncores (a : Args) (n t : option Z) (p : string) :
  worker_options a n t p !! "ncores" = Some (of_option VInt t).
Proof. unfold worker_options. by apply lookup_union_Some_l. Qed.

Lemma ceildiv_ok (a b : Z) : b ≠ 0 → Py.ceildiv a b = Ok (- (- a / b)).
Proof. intros Hb. unfold Py.ceildiv. by destruct (decide (b = 0)). Qed.

(** [- (- a / b)] is the ceiling of the rational [a / b]. *)
Lemma ceiling_bounds (a b : Z) :
  0 < b → b * (- (- a / b) - 1) < a ≤ b * - (- a / b).
Proof.
  intros Hb. pose proof (Z.mul_div_le (- a) b Hb).
  pose proof (Z.mul_succ_div_gt (- a) b Hb). lia.
Qed.

(** Once the counts are resolved the worker count is a number. *)
Lemma resolve_counts_some (b : bool) (n t n' t' : option Z) :
  resolve_counts b n t = Ok (n', t') → is_Some n'.
Proof.
  unfold resolve_counts. destruct n as [n|], t as [t|]; simpl.
  - intros [= <- _]. eauto.
  - destruct (negb (n =? 0)); simpl.
    + destruct (Py.ceildiv _ncores n); simpl; [|done]. intros [= <- _]. eauto.
    + intros [= <- _]. eauto.
  - destruct (Py.floordiv _ncores t); simpl; [|done]. intros [= <- _]. eauto.
  - destruct b; simpl.
    + destruct (nprocesses_nthreads _ncores) as [[p q]|]; simpl; [|done].
      intros [= <- _]. eauto.
    + intros [= <- _]. eauto.
Qed.

(** A successful [plan] is made of the resolved protocol, host and counts. *)
Lemma plan_inv (a : Args) (p : Plan) :
  plan a = Ok p →
  ∃ t,
    resolve_counts (processes a) (n_workers a) (threads_per_worker a)
      = Ok (Some (plan_n_workers p), t)
    ∧ plan_protocol p = resolved_protocol a
    ∧ plan_host p = resolved_host a
    ∧ plan_threads_per_worker p = t
    ∧ plan_scheduler p
      = scheduler_of a (resolved_host a) (resolved_protocol a)
    ∧ plan_worker p
      = worker_of a (worker_options a (Some (plan_n_workers p)) t
                                    (resolved_protocol a))
    ∧ plan_workers p = worker_slots (plan_n_workers p) (plan_worker p).
Proof.
  unfold plan.
  destruct (resolve_counts _ _ _) as [[n t]|] eqn:Hc; simpl; [|done].
  destruct (resolve_counts_some _ _ _ _ _ Hc) as [k ->]. simpl.
  intros [= <-]. exists t. simpl. by repeat split.
Qed.

(** [plan] fails exactly when the counts cannot be resolved. *)
Lemma plan_total (a : Args) (n t : option Z) :
  resolve_counts (processes a) (n_workers a) (threads_per_worker a)
    = Ok (n, t) →
  ∃ p, plan a = Ok p.
Proof.
  intros Hc. unfold plan. rewrite Hc. simpl.
  destruct (resolve_counts_some _ _ _ _ _ Hc) as [k ->]. simpl. eauto.
Qed.

(** C5.  On a machine with at least one core: with neither count given the
    partitioner is called on the core count in process mode, and one process
    owns all the cores otherwise; with only the thread count [t] given the
    worker count is [max(1, cores // t)]; with only the worker count [n]
    given the thread count is the ceiling of [cores / n], so that
    [n * threads] covers the cores; three workers on eight cores get three
    threads each. *)
Theorem resolve_counts_spec :
  1 ≤ _ncores →
  (∃ p t, nprocesses_nthreads _ncores = Ok (p, t)
          ∧ resolve_counts true None None = Ok (Some p, Some t))
  ∧ resolve_counts false None None = Ok (Some 1, Some _ncores)
  ∧ (∀ b t, t ≠ 0 →
       resolve_counts b None (Some t)
       = Ok (Some (Z.max 1 (_ncores / t)), Some t))
  ∧ (∀ b n, 1 ≤ n →
       ∃ t, resolve_counts b (Some n) None = Ok (Some n, Some t)
            ∧ n * (t - 1) < _ncores ≤ n * t)
  ∧ (_ncores = 8 → ∀ b, resolve_counts b (Some 3) None = Ok (Some 3, Some 3)).
Proof.
  intros Hcores. repeat apply conj.
  - destruct (nprocesses_positive _ncores Hcores) as (p & t & Hrun & _).
    exists p, t. split; [done|]. unfold resolve_counts. by rewrite Hrun.
  - done.
  - intros b t Ht. unfold resolve_counts. simpl. by rewrite floordiv_ok.
  - intros b n Hn. unfold resolve_counts. simpl.
    destruct (Z.eqb_spec n 0) as [?|_]; [lia|]. simpl.
    rewrite ceildiv_ok by lia. simpl.
    pose proof (ceiling_bounds _ncores n ltac:(lia)) as Hceil.
    exists (- (- _ncores / n)).
    replace (Z.max 1 (- (- _ncores / n))) with (- (- _ncores / n)) by nia.
    split; [done|lia].
  - intros H8 b. unfold resolve_counts. simpl. rewrite H8. done.
Qed.

End Plan.

(** ** Protocol and host *)

Lemma resolve_protocol_endswith (b : bool) (h : option string)
    (sec : option Security) (port : Z) (p : option string) :
  PyStr.endswith "://" (resolve_protocol b h sec port p) = true.
Proof.
  unfold resolve_protocol.
  match goal with
  | |- context [negb (PyStr.endswith "://" ?q)] =>
      destruct (PyStr.endswith "://" q) eqn:He; simpl
  end; [done|apply endswith_append].
Qed.

(** Without a scheme in the host the choice is between three literals. *)
Lemma resolve_protocol_no_scheme (b : bool) (h : option string)
    (sec : option Security) (port : Z) :
  (∀ s, h = Some s → PyStr.contains "://" s = false) →
  resolve_protocol b h sec port None
  = if bool_decide (is_Some sec) then "tls://"
    else if negb b && (port =? 0) then "inproc://" else "tcp://".
Proof.
  intros Hno. unfold resolve_protocol.
  assert (nonempty h && PyStr.contains "://" (default EmptyString h) = false)
    as ->.
  { destruct h as [s|]; [|done]. simpl. rewrite (Hno s eq_refl).
    apply andb_false_r. }
  destruct (bool_decide _); [done|]. by destruct (negb b && (port =? 0)).
Qed.

Lemma resolve_protocol_scheme (b : bool) (s : string)
    (sec : option Security) (port : Z) :
  PyStr.contains "://" s = true →
  ∃ scheme rest,
    s = scheme +:+ "://" +:+ rest
    ∧ (∀ pre' rest', s = pre' +:+ "://" +:+ rest' →
         (String.length scheme ≤ String.length pre')%nat)
    ∧ resolve_protocol b (Some s) sec port None = scheme +:+ "://".
Proof.
  intros Hc. destruct (split_first _ _ Hc) as (scheme & rest & Hs & Hhd & Hmin).
  exists scheme, rest. split; [done|]. split; [done|].
  unfold resolve_protocol. simpl. rewrite Hc.
  assert (String.eqb s EmptyString = false) as ->.
  { apply String.eqb_neq. intros ->. done. }
  simpl. rewrite Hhd.
  rewrite (first_piece_no_suffix "://" scheme rest); [done|done|].
  by rewrite <- Hs.
Qed.

Section Resolution.
Context `{C : Collaborators}.

(** C4.  With no explicit protocol: a scheme embedded in the host (as it
    stands after the [ip] alias) gives the protocol, namely what precedes
    the first ["://"]; otherwise a security context gives [tls]; otherwise
    thread mode with scheduler port 0 gives [inproc]; otherwise [tcp]; and
    the resolved protocol always ends with ["://"].  It is the protocol
    handed to the scheduler and to the workers. *)
Theorem protocol_precedence (a : Args) :
  protocol a = None →
  let h := alias_host (host a) (ip a) in
  (∀ s, h = Some s → PyStr.contains "://" s = true →
     ∃ scheme rest,
       s = scheme +:+ "://" +:+ rest
       ∧ (∀ pre' rest', s = pre' +:+ "://" +:+ rest' →
            (String.length scheme ≤ String.length pre')%nat)
       ∧ resolved_protocol a = scheme +:+ "://")
  ∧ ((∀ s, h = Some s → PyStr.contains "://" s = false) →
       (is_Some (security a) → resolved_protocol a = "tls://")
       ∧ (security a = None → processes a = false → scheduler_port a = 0 →
            resolved_protocol a = "inproc://")
       ∧ (security a = None → processes a = true ∨ scheduler_port a ≠ 0 →
            resolved_protocol a = "tcp://"))
  ∧ PyStr.endswith "://" (resolved_protocol a) = true
  ∧ (∀ p, plan a = Ok p →
       plan_protocol p = resolved_protocol a
       ∧ options (plan_scheduler p) !! "protocol"
         = Some (VStr (resolved_protocol a))
       ∧ options (plan_worker p) !! "protocol"
         = Some (VStr (resolved_protocol a))).
Proof.
  intros Hprot h. unfold resolved_protocol. fold h. rewrite Hprot.
  split; [|split; [|split]].
  - intros s -> Hc. apply resolve_protocol_scheme, Hc.
  - intros Hno. rewrite (resolve_protocol_no_scheme _ _ _ _ Hno).
    split; [|split].
    + intros Hsec. by rewrite bool_decide_eq_true_2.
    + intros -> -> ->. done.
    + intros -> Hor. simpl.
      destruct Hor as [->|Hport]; [done|].
      destruct (Z.eqb_spec (scheduler_port a) 0); [done|].
      by rewrite andb_false_r.
  - apply resolve_protocol_endswith.
  - intros p Hp. destruct (plan_inv a p Hp) as (t & _ & Hpr & _ & _ & Hs & Hw & _).
    unfold resolved_protocol in *. fold h in Hpr, Hs, Hw. rewrite Hprot in *.
    rewrite Hpr, Hs, Hw. split; [done|]. split; [apply scheduler_protocol|].
    apply worker_protocol.
Qed.

(** C8.  When the host is unset after the [ip] alias, no interface is
    requested and the resolved protocol is not an in-process one, the host
    becomes the loopback address; when the protocol is in-process or an
    interface is given it stays unset; an unset host never becomes anything
    but the loopback address, and a given host is kept.  The code takes a
    protocol for in-process when it starts with [inproc]; among the
    protocols the resolver picks itself that is exactly ["inproc://"]. *)
Theorem host_defaults_to_loopback (a : Args) :
  let h := alias_host (host a) (ip a) in
  (h = None → nonempty (interface a) = false →
     PyStr.startswith "inproc" (resolved_protocol a) = false →
     resolved_host a = Some "127.0.0.1")
  ∧ (h = None →
       PyStr.startswith "inproc" (resolved_protocol a) = true
       ∨ nonempty (interface a) = true →
       resolved_host a = None)
  ∧ (h = None → resolved_host a = None ∨ resolved_host a = Some "127.0.0.1")
  ∧ (∀ s, h = Some s → resolved_host a = Some s)
  ∧ (h = None → protocol a = None →
       resolved_protocol a ∈ ["tls://"; "inproc://"; "tcp://"]
       ∧ (PyStr.startswith "inproc" (resolved_protocol a) = true
          ↔ resolved_protocol a = "inproc://"))
  ∧ (∀ p, plan a = Ok p →
       plan_host p = resolved_host a
       ∧ options (plan_scheduler p) !! "host"
         = Some (of_option VStr (resolved_host a))).
Proof.
  intros h. unfold resolved_host. fold h. repeat apply conj.
  - intros -> Hi Hp. unfold default_host. by rewrite Hi, Hp.
  - intros -> Hor. unfold default_host.
    destruct Hor as [->| ->]; simpl; [done|]. by rewrite andb_false_r.
  - intros ->. unfold default_host. destruct (_ && _); auto.
  - by intros s ->.
  - intros Hh Hprot. unfold resolved_protocol. fold h. rewrite Hh, Hprot.
    rewrite resolve_protocol_no_scheme by done.
    destruct (bool_decide _); [|destruct (_ && _)];
      (split; [set_solver|by split]).
  - intros p Hp. destruct (plan_inv a p Hp) as (t & _ & _ & Hh & _ & Hs & _).
    unfold resolved_host in Hh, Hs. fold h in Hh, Hs.
    rewrite Hh, Hs. split; [done|apply scheduler_host].
Qed.

(** C3 as the code has it.  For [host="tls://foo"] with neither [ip] nor
    [protocol] given, the resolved protocol is ["tls://"] and the host stays
    ["tls://foo"]: the scheme is read from the host and not removed from
    it, and the scheduler is handed both. *)
Theorem tls_host_keeps_scheme (a : Args) :
  host a = Some "tls://foo" → ip a = None → protocol a = None →
  resolved_protocol a = "tls://"
  ∧ resolved_host a = Some "tls://foo"
  ∧ (∀ p, plan a = Ok p →
       options (plan_scheduler p) !! "protocol" = Some (VStr "tls://")
       ∧ options (plan_scheduler p) !! "host" = Some (VStr "tls://foo")).
Proof.
  intros Hhost Hip Hprot.
  assert (Hp : resolved_protocol a = "tls://").
  { unfold resolved_protocol. by rewrite Hhost, Hip, Hprot. }
  assert (Hh : resolved_host a = Some "tls://foo").
  { unfold resolved_host. by rewrite Hhost, Hip. }
  split; [done|]. split; [done|].
  intros p Hplan.
  destruct (plan_inv a p Hplan) as (t & _ & _ & _ & _ & Hs & _).
  rewrite Hs, Hp, Hh. split; [apply scheduler_protocol|apply scheduler_host].
Qed.

(** C10.  A supplied [ip] replaces the host whatever the caller passed as
    [host]: the request resolves as if [host] had been [ip], so the protocol
    is resolved from [ip], no default host is applied, and the scheduler is
    handed [ip] as its host. *)
Theorem ip_replaces_host (a : Args) (v : string) :
  ip a = Some v →
  alias_host (host a) (ip a) = Some v
  ∧ resolved_protocol a
    = resolve_protocol (processes a) (Some v) (security a) (scheduler_port a)
                       (protocol a)
  ∧ resolved_host a = Some v
  ∧ (∀ h, plan (with_host h a) = plan a)
  ∧ (∀ h self,
       LocalCluster.__init__ self (with_host h a) = LocalCluster.__init__ self a)
  ∧ (∀ p, plan a = Ok p →
       options (plan_scheduler p) !! "host" = Some (VStr v)).
Proof.
  intros Hip.
  assert (Hh : resolved_host a = Some v).
  { unfold resolved_host. by rewrite Hip. }
  assert (Hplan : ∀ h, plan (with_host h a) = plan a).
  { intros h. unfold plan. simpl. by rewrite Hip. }
  repeat apply conj.
  - by rewrite Hip.
  - unfold resolved_protocol. by rewrite Hip.
  - done.
  - done.
  - intros h self. unfold LocalCluster.__init__. by rewrite Hplan.
  - intros p Hp. destruct (plan_inv a p Hp) as (t & _ & _ & _ & _ & Hs & _).
    rewrite Hs, Hh. apply scheduler_host.
Qed.

End Resolution.

(** ** The worker slots *)




Section Slots.
Context `{C : Collaborators}.


End Slots.

(** ** The lifecycle registry *)

Section Registry.
Context `{C : Collaborators}.

Lemma preserves_ret {A} (a : A) : preserves_registry (mret a : M A).
Proof. by intros w. Qed.

Lemma preserves_bind {A B} (m : M A) (f : A → M B) :
  preserves_registry m → (∀ a, preserves_registry (f a)) →
  preserves_registry (m ≫= f).
Proof.
  intros Hm Hf w. unfold mbind, M_bind. specialize (Hm w).
  destruct (m w) as [w' [a|e]]; simpl in *; [|done].
  by rewrite Hf.
Qed.

Lemma preserves_lift {A} (r : Result A) : preserves_registry (Eff.lift r).
Proof. by intros w. Qed.

Lemma preserves_warn (msg : string) : preserves_registry (Eff.warn msg).
Proof. by intros w. Qed.

Lemma preserves_setattr (self : Handle) (name : string) (v : Value) :
  preserves_registry (Eff.setattr self name v).
Proof. by intros w. Qed.

Lemma preserves_when (b : bool) (m : M unit) :
  preserves_registry m → preserves_registry (Eff.when b m).
Proof. intros Hm. destruct b; [done|apply preserves_ret]. Qed.

Lemma preserves_call (ev : Event) (f : Callee) :
  keeps_registry f → preserves_registry (Eff.call ev f).
Proof.
  intros Hf w. unfold Eff.call. specialize (Hf (heap w)).
  by destruct (f (heap w)).
Qed.

(** X16.  The statements of the constructor themselves neither add to nor
    remove from [clusters_to_close]: when [SpecCluster.__init__] and [scale]
    leave the registry as it is, so does [LocalCluster.__init__], whether it
    returns or raises.  Whether a constructed cluster is registered is
    therefore decided by those two callees alone. *)
Theorem init_leaves_registry (self : Handle) (a : Args) (w : World) :
  (∀ s ws wk l b sl, keeps_registry (SpecCluster_init self s ws wk l b sl)) →
  (∀ n, keeps_registry (scale self n)) →
  clusters_to_close (heap (LocalCluster.__init__ self a w).1)
  = clusters_to_close (heap w)
  ∧ (self ∉ clusters_to_close (heap w) →
     self ∉ clusters_to_close (heap (LocalCluster.__init__ self a w).1)).
Proof.
  intros Hinit Hscale.
  assert (Hkeep : preserves_registry (LocalCluster.__init__ self a)).
  { unfold LocalCluster.__init__.
    repeat (apply preserves_bind; [|intros ?]);
      auto using preserves_when, preserves_warn, preserves_setattr,
                 preserves_lift, preserves_call. }
  split; [apply Hkeep|]. by rewrite Hkeep.
Qed.

End Registry.

(** ** The exit hook *)

Section Drain.
Context `{C : Collaborators}.

(** The body of the loop of [close_clusters]. *)
Local Abbreviation close_one :=
  (fun cluster => Eff.call (CallClose cluster 10) (close cluster 10)).

Lemma close_calls_length (l : list Handle) :
  length (close_calls l) = length l.
Proof. unfold close_calls. apply length_fmap. Qed.

Lemma call_close_run (c : Handle) (w : World) :
  Eff.call (CallClose c 10) (close c 10) w
  = ({| heap := (close c 10 (heap w)).1; trace := trace w ++ [CallClose c 10] |},
     (close c 10 (heap w)).2).
Proof. unfold Eff.call. by destruct (close c 10 (heap w)). Qed.

Lemma for_each_cons (c : Handle) (l : list Handle) (w : World) :
  Eff.for_each (c :: l) close_one w
  = match (close c 10 (heap w)).2 with
    | Ok _ =>
        Eff.for_each l close_one
          {| heap := (close c 10 (heap w)).1;
             trace := trace w ++ [CallClose c 10] |}
    | Raise e =>
        ({| heap := (close c 10 (heap w)).1;
            trace := trace w ++ [CallClose c 10] |}, Raise e)
    end.
Proof.
  simpl. unfold mbind, M_bind. rewrite call_close_run.
  by destruct (close c 10 (heap w)).2.
Qed.

(** The loop always attempts an initial part of the list, in order. *)
Lemma for_each_prefix (l : list Handle) (w : World) :
  ∃ k, (k ≤ length l)%nat
       ∧ trace (Eff.for_each l close_one w).1
         = trace w ++ close_calls (take k l).
Proof.
  revert w. induction l as [|c l IH]; intros w.
  - exists 0%nat. simpl. by rewrite app_nil_r.
  - rewrite for_each_cons. destruct (close c 10 (heap w)).2 as [[]|e].
    + destruct (IH {| heap := (close c 10 (heap w)).1;
                      trace := trace w ++ [CallClose c 10] |}) as (k & Hk & ->).
      exists (S k). simpl. split; [lia|]. by rewrite <- app_assoc.
    + exists 1%nat. simpl. split; [lia|]. by rewrite ?take_0.
Qed.

(** When no close raises, every cluster of the list is attempted. *)
Lemma for_each_all (l : list Handle) (w : World) :
  (∀ c, c ∈ l → ∀ h, (close c 10 h).2 = Ok tt) →
  (Eff.for_each l close_one w).2 = Ok tt
  ∧ trace (Eff.for_each l close_one w).1 = trace w ++ close_calls l.
Proof.
  revert w. induction l as [|c l IH]; intros w Hok.
  - simpl. by rewrite app_nil_r.
  - rewrite for_each_cons, (Hok c) by (apply elem_of_cons; auto).
    destruct (IH {| heap := (close c 10 (heap w)).1;
                    trace := trace w ++ [CallClose c 10] |}) as [-> ->].
    { intros c' Hc'. apply Hok, elem_of_cons. auto. }
    split; [done|]. simpl. by rewrite <- app_assoc.
Qed.

(** The first close that raises ends the loop. *)
Lemma for_each_stop (l : list Handle) (k : nat) (c : Handle) (e : Exn)
    (w : World) :
  l !! k = Some c →
  (∀ c', c' ∈ take k l → ∀ h, (close c' 10 h).2 = Ok tt) →
  (∀ h, (close c 10 h).2 = Raise e) →
  (Eff.for_each l close_one w).2 = Raise e
  ∧ trace (Eff.for_each l close_one w).1
    = trace w ++ close_calls (take (S k) l).
Proof.
  revert k w. induction l as [|x l IH]; intros k w Hk Hbefore Hraise; [done|].
  rewrite for_each_cons. destruct k as [|k]; simpl in Hk.
  - injection Hk as ->. rewrite Hraise. simpl. by rewrite ?take_0.
  - rewrite (Hbefore x) by (simpl; apply elem_of_cons; auto).
    destruct (IH k {| heap := (close x 10 (heap w)).1;
                      trace := trace w ++ [CallClose x 10] |} Hk) as [-> ->].
    { intros c' Hc'. apply Hbefore. simpl. apply elem_of_cons. auto. }
    { done. }
    split; [done|]. simpl. by rewrite <- app_assoc.
Qed.

Lemma close_clusters_run (w : World) :
  close_clusters w
  = Eff.for_each (elements (clusters_to_close (heap w))) close_one w.
Proof. reflexivity. Qed.

(** C2 as the code has it.  [close_clusters] calls [close(timeout=10)] on
    the clusters of a snapshot of the registry, one after the other and
    with no exception handler.  When no close raises, each of the N
    registered clusters is attempted and the hook returns.  When the close
    of the cluster at position [k] of the snapshot is the first to raise,
    exactly the [k + 1] clusters up to it are attempted and the exception
    leaves [close_clusters].  In every case the attempts are an initial
    part of the snapshot. *)
Theorem close_clusters_attempts (w : World) :
  let snapshot := elements (clusters_to_close (heap w)) in
  ((∀ c, c ∈ clusters_to_close (heap w) → ∀ h, (close c 10 h).2 = Ok tt) →
     (close_clusters w).2 = Ok tt
     ∧ trace (close_clusters w).1 = trace w ++ close_calls snapshot
     ∧ length (close_calls snapshot) = size (clusters_to_close (heap w)))
  ∧ (∀ k c e,
       snapshot !! k = Some c →
       (∀ c', c' ∈ take k snapshot → ∀ h, (close c' 10 h).2 = Ok tt) →
       (∀ h, (close c 10 h).2 = Raise e) →
       (close_clusters w).2 = Raise e
       ∧ trace (close_clusters w).1
         = trace w ++ close_calls (take (S k) snapshot)
       ∧ length (close_calls (take (S k) snapshot)) = S k)
  ∧ (∃ k, (k ≤ size (clusters_to_close (heap w)))%nat
          ∧ trace (close_clusters w).1
            = trace w ++ close_calls (take k snapshot)).
Proof.
  intros snapshot. rewrite close_clusters_run. fold snapshot.
  split; [|split].
  - intros Hok. destruct (for_each_all snapshot w) as [-> ->].
    { intros c Hc. apply Hok. by apply elem_of_elements. }
    by rewrite close_calls_length.
  - intros k c e Hk Hbefore Hraise.
    destruct (for_each_stop snapshot k c e w Hk Hbefore Hraise) as [-> ->].
    split; [done|]. split; [done|].
    rewrite close_calls_length, length_take.
    apply lookup_lt_Some in Hk. lia.
  - apply for_each_prefix.
Qed.

End Drain.

(** ** Concrete runs *)

(** C2 fails as stated.  Two clusters are registered and closing cluster 2,
    the first of the snapshot, raises: one close is attempted, not two, cluster 1 is never
    tried although its close would succeed, and the exception leaves
    [close_clusters]. *)
Lemma close_clusters_failure_stops_drain :
  let run := close_clusters (C:=eight_cores_close_fails) Described.two_registered in
  size (clusters_to_close (heap Described.two_registered)) = 2%nat
  ∧ trace run.1 = [CallClose 2%positive 10]
  ∧ length (trace run.1) ≠ 2%nat
  ∧ run.2 = Raise (Raised "CloseFailure")
  ∧ (∀ h, (close (Collaborators:=eight_cores_close_fails) 1%positive 10 h).2
          = Ok tt).
Proof.
  repeat apply conj; try by vm_compute.
Qed.

(** The drain of two registered clusters: both are attempted when every
    close succeeds; only cluster 2 is when its close raises. *)
Lemma close_clusters_attempts_witness :
  ((close_clusters (C:=eight_cores) Described.two_registered).2 = Ok tt
   ∧ trace (close_clusters (C:=eight_cores) Described.two_registered).1
     = close_calls [2%positive; 1%positive])
  ∧ ((close_clusters (C:=eight_cores_close_fails) Described.two_registered).2
     = Raise (Raised "CloseFailure")
     ∧ trace (close_clusters (C:=eight_cores_close_fails)
                Described.two_registered).1
       = close_calls [2%positive]).
Proof.
  split.
  - destruct (proj1 (close_clusters_attempts (C:=eight_cores)
                       Described.two_registered)) as (Hr & Ht & _).
    + intros c _ h. reflexivity.
    + split; [exact Hr|exact Ht].
  - destruct (proj1 (proj2 (close_clusters_attempts
                              (C:=eight_cores_close_fails)
                              Described.two_registered))
                0%nat 2%positive (Raised "CloseFailure")) as (Hr & Ht & _).
    + reflexivity.
    + intros c' Hc'. simpl in Hc'. by apply elem_of_nil in Hc'.
    + intros h. reflexivity.
    + split; [exact Hr|exact Ht].
Defined.

(** C3 fails as stated.  [LocalCluster(host="tls://foo")] on eight cores: the
    protocol is
    ["tls://"], and the host that is resolved and handed to the scheduler is
    ["tls://foo"], not ["foo"]. *)
Lemma tls_host_not_stripped :
  resolved_protocol tls_foo_request = "tls://"
  ∧ resolved_host tls_foo_request = Some "tls://foo"
  ∧ resolved_host tls_foo_request ≠ Some "foo"
  ∧ (p ← plan (C:=eight_cores) tls_foo_request;
     Ok (options (plan_scheduler p) !! "host"))
    = Ok (Some (VStr "tls://foo")).
Proof.
  repeat apply conj; try by vm_compute.
Qed.

(** [LocalCluster(host="tls://foo")] satisfies the three premises. *)
Lemma tls_host_keeps_scheme_witness :
  resolved_protocol tls_foo_request = "tls://"
  ∧ resolved_host tls_foo_request = Some "tls://foo".
Proof.
  destruct (tls_host_keeps_scheme (C:=eight_cores) tls_foo_request
              eq_refl eq_refl eq_refl) as (Hp & Hh & _).
  split; [exact Hp|exact Hh].
Defined.

(** One request for each of the four ways the protocol is chosen. *)
Lemma protocol_precedence_witness :
  (∃ scheme rest,
     "tls://foo" = scheme +:+ "://" +:+ rest
     ∧ resolved_protocol tls_foo_request = scheme +:+ "://")
  ∧ resolved_protocol default_args = "tcp://"
  ∧ resolved_protocol
      (request None None false None None 0 None None None None) = "inproc://"
  ∧ resolved_protocol
      (request None None false None None 0 (Some (SecurityContext "ctx"))
               None None None) = "tls://".
Proof.
  split; [|split; [|split]].
  - destruct (proj1 (protocol_precedence (C:=eight_cores) tls_foo_request
                       eq_refl) "tls://foo" eq_refl eq_refl)
      as (scheme & rest & Hs & _ & Hp).
    exists scheme, rest. split; [exact Hs|exact Hp].
  - destruct (proj1 (proj2 (protocol_precedence (C:=eight_cores) default_args
                              eq_refl))) as (_ & _ & Htcp); [done|].
    apply Htcp; [reflexivity|by left].
  - destruct (proj1 (proj2 (protocol_precedence (C:=eight_cores)
                (request None None false None None 0 None None None None)
                eq_refl))) as (_ & Hinproc & _); [done|].
    apply Hinproc; reflexivity.
  - destruct (proj1 (proj2 (protocol_precedence (C:=eight_cores)
                (request None None false None None 0
                         (Some (SecurityContext "ctx")) None None None)
                eq_refl))) as (Htls & _); [done|].
    apply Htls. simpl. eauto.
Defined.

(** The counts on eight cores. *)
Lemma resolve_counts_spec_witness :
  1 ≤ _ncores (Collaborators:=eight_cores)
  ∧ resolve_counts (C:=eight_cores) true (Some 3) None = Ok (Some 3, Some 3)
  ∧ resolve_counts (C:=eight_cores) true None (Some 3) = Ok (Some 2, Some 3)
  ∧ resolve_counts (C:=eight_cores) false None None = Ok (Some 1, Some 8).
Proof.
  assert (H8 : 1 ≤ _ncores (Collaborators:=eight_cores)) by (simpl; lia).
  destruct (resolve_counts_spec (C:=eight_cores) H8)
    as (_ & Hthreads & Hdiv & _ & Hthree).
  split; [exact H8|]. split; [exact (Hthree eq_refl true)|].
  split; [apply (Hdiv true 3); lia|exact Hthreads].
Defined.

(** Callees that leave the registry alone exist, and with them the
    construction of [LocalCluster()] leaves it alone. *)
Lemma init_leaves_registry_witness :
  clusters_to_close
    (heap (LocalCluster.__init__ (C:=eight_cores) 1%positive default_args
             Described.empty_world).1)
  = clusters_to_close (heap Described.empty_world).
Proof.
  apply (init_leaves_registry (C:=eight_cores) 1%positive default_args
           Described.empty_world).
  - intros s ws wk l b sl h. reflexivity.
  - intros n h. reflexivity.
Defined.


(** The default request gets the loopback address; thread mode (in-process
    protocol) and a request with an interface keep the host unset. *)
Lemma host_defaults_to_loopback_witness :
  resolved_host default_args = Some "127.0.0.1"
  ∧ resolved_host
      (request None None false None None 0 None None None None) = None
  ∧ resolved_host
      (request None None true None None 0 None None (Some "eth0") None) = None.
Proof.
  split; [|split].
  - apply (proj1 (host_defaults_to_loopback (C:=eight_cores) default_args));
      reflexivity.
  - apply (proj1 (proj2 (host_defaults_to_loopback (C:=eight_cores)
             (request None None false None None 0 None None None None))));
      [reflexivity|left; reflexivity].
  - apply (proj1 (proj2 (host_defaults_to_loopback (C:=eight_cores)
             (request None None true None None 0 None None (Some "eth0")
                      None))));
      [reflexivity|right; reflexivity].
Defined.

(** [LocalCluster(host="example.org", ip="10.0.0.7")]: the scheduler is
    handed the [ip]. *)
Lemma ip_replaces_host_witness :
  host ip_request = Some "example.org"
  ∧ resolved_host ip_request = Some "10.0.0.7"
  ∧ (p ← plan (C:=eight_cores) ip_request;
     Ok (options (plan_scheduler p) !! "host"))
    = Ok (Some (VStr "10.0.0.7")).
Proof.
  destruct (ip_replaces_host (C:=eight_cores) ip_request "10.0.0.7" eq_refl)
    as (_ & _ & Hh & _ & _ & Hs).
  split; [reflexivity|]. split; [exact Hh|].
  destruct (plan_total (C:=eight_cores) ip_request (Some 4) (Some 2) eq_refl)
    as [p Hp].
  rewrite Hp. simpl. by rewrite (Hs p Hp).
Defined.

(** * Further properties *)

(** ** The partitioner beyond its contract *)

(** X1.  On a machine with at least one core the partition never has more
    threads per process than processes, and the core count lies between the
    squares of the two numbers. *)
Theorem nprocesses_balanced (n p t : Z) :
  1 ≤ n → nprocesses_nthreads n = Ok (p, t) →
  t ≤ p ∧ t * t ≤ n ≤ p * p.
Proof.
  intros Hn Hrun.
  destruct (nprocesses_positive n Hn)
    as (p' & t' & Hrun' & Hprod & Hp & Ht & Hsmall & Hlarge).
  rewrite Hrun in Hrun'. injection Hrun' as <- <-.
  destruct (decide (n ≤ 4)) as [Hle|Hgt].
  - destruct (Hsmall Hle) as [-> ->]. nia.
  - destruct (Hlarge ltac:(lia)) as (_ & Hsq & _ & _). unfold ge_sqrt in Hsq.
    assert (t ≤ p) by nia. nia.
Qed.

Lemma nprocesses_balanced_witness :
  (2 : Z) ≤ 3 ∧ 2 * 2 ≤ 6 ≤ 3 * 3.
Proof.
  apply (nprocesses_balanced 6 3 2); [lia|reflexivity].
Defined.

(** X2.  A square number of cores [k * k], from nine on, is split into [k]
    processes of [k] threads, and a prime number of cores into one
    single-threaded process per core. *)
Theorem nprocesses_squares_and_primes :
  (∀ k, 3 ≤ k → nprocesses_nthreads (k * k) = Ok (k, k))
  ∧ (∀ n, Z.prime n → nprocesses_nthreads n = Ok (n, 1)).
Proof.
  split.
  - intros k Hk.
    destruct (nprocesses_large (k * k) ltac:(nia))
      as (p & -> & Hpos & _ & Hsq & Hleast).
    unfold ge_sqrt in *.
    assert (p ≤ k).
    { apply Hleast; [lia| |lia]. by exists k. }
    assert (p = k) as -> by nia.
    by rewrite Z.div_mul by lia.
  - intros n Hprime. pose proof (Z.prime_ge_2 n Hprime) as H2.
    destruct (decide (n ≤ 4)) as [Hle|Hgt].
    + unfold nprocesses_nthreads.
      destruct (decide (n ≤ 4)) as [_|?]; [|lia]. simpl.
      rewrite floordiv_ok by lia. by rewrite Z.div_same by lia.
    + destruct (nprocesses_large n ltac:(lia))
        as (p & -> & Hpos & Hdiv & Hsq & _).
      unfold ge_sqrt in Hsq.
      destruct (Z.divide_prime_r p n Hprime Hdiv) as [?|[?|[?|?]]]; try lia.
      subst p. by rewrite Z.div_same by lia.
Qed.

Lemma nprocesses_squares_and_primes_witness :
  nprocesses_nthreads (5 * 5) = Ok (5, 5)
  ∧ nprocesses_nthreads 7 = Ok (7, 1).
Proof.
  split.
  - apply (proj1 nprocesses_squares_and_primes 5). lia.
  - apply (proj2 nprocesses_squares_and_primes 7).
    split; [lia|]. intros k Hk [q Hq].
    assert (k = 2 ∨ k = 3 ∨ k = 4 ∨ k = 5 ∨ k = 6) as Hcases by lia.
    destruct Hcases as [->|[->|[->|[->| ->]]]]; lia.
Defined.

(** X3.  Below [float_exact_bound], where the square root is modelled
    exactly, [nprocesses_nthreads] raises for no integer but zero, where
    the floor division by the zero process count raises
    [ZeroDivisionError]; in particular [min] never sees an empty sequence.
    A negative count [n] is returned as [(n, 1)]. *)
Theorem nprocesses_bounded_raises_only_at_zero (n : Z) :
  n < float_exact_bound →
  (n = 0 → nprocesses_nthreads n = Raise ZeroDivisionError)
  ∧ (n < 0 → nprocesses_nthreads n = Ok (n, 1))
  ∧ (n ≠ 0 → ∃ p t, nprocesses_nthreads n = Ok (p, t)).
Proof.
  intros _.
  assert (Hneg : n < 0 → nprocesses_nthreads n = Ok (n, 1)).
  { intros Hn. unfold nprocesses_nthreads.
    destruct (decide (n ≤ 4)) as [_|?]; [|lia]. simpl.
    rewrite floordiv_ok by lia. by rewrite Z.div_same by lia. }
  split; [by intros ->|]. split; [done|].
  intros Hn. destruct (decide (n < 0)) as [Hlt|Hge].
  - rewrite Hneg by done. eauto.
  - destruct (nprocesses_positive n ltac:(lia)) as (p & t & -> & _). eauto.
Qed.

Lemma nprocesses_bounded_raises_only_at_zero_witness :
  nprocesses_nthreads 0 = Raise ZeroDivisionError
  ∧ nprocesses_nthreads (-3) = Ok (-3, 1)
  ∧ ∃ p t, nprocesses_nthreads 12 = Ok (p, t).
Proof.
  split; [|split].
  - apply (proj1 (nprocesses_bounded_raises_only_at_zero 0 eq_refl)).
    reflexivity.
  - apply (proj1 (proj2 (nprocesses_bounded_raises_only_at_zero (-3) eq_refl))).
    lia.
  - apply (proj2 (proj2 (nprocesses_bounded_raises_only_at_zero 12 eq_refl))).
    lia.
Defined.

(** ** An explicit protocol *)

(** X4.  An explicit [protocol] is used whatever the host, the security
    context, the mode and the port are; a missing ["://"] is appended and a
    present one is not doubled, so a scheme with and without the separator
    resolve to the same protocol, and resolving is idempotent. *)
Theorem explicit_protocol_normalised (p : string) :
  (∀ b h sec port b' h' sec' port',
     resolve_protocol b h sec port (Some p)
     = resolve_protocol b' h' sec' port' (Some p))
  ∧ (∀ b h sec port,
       resolve_protocol b h sec port (Some (p +:+ "://")) = p +:+ "://")
  ∧ (∀ b h sec port,
       PyStr.endswith "://" p = false →
       resolve_protocol b h sec port (Some p) = p +:+ "://")
  ∧ (∀ b h sec port,
       resolve_protocol b h sec port
         (Some (resolve_protocol b h sec port (Some p)))
       = resolve_protocol b h sec port (Some p)).
Proof.
  assert (Hdone : ∀ b h sec port q,
            PyStr.endswith "://" q = true →
            resolve_protocol b h sec port (Some q) = q).
  { intros b h sec port q Hq. unfold resolve_protocol. by rewrite Hq. }
  repeat apply conj.
  - done.
  - intros. apply Hdone, endswith_append.
  - intros b h sec port Hp. unfold resolve_protocol. by rewrite Hp.
  - intros. apply Hdone, resolve_protocol_endswith.
Qed.

Lemma explicit_protocol_normalised_witness :
  resolve_protocol true (Some "tcp://host") None 0 (Some "tls") = "tls://"
  ∧ resolve_protocol true None None 0 (Some "tls://") = "tls://".
Proof.
  split.
  - apply (proj1 (proj2 (proj2 (explicit_protocol_normalised "tls")))).
    reflexivity.
  - apply (proj1 (proj2 (explicit_protocol_normalised "tls"))).
Defined.

(** ** Counts and options *)

Section Options.
Context `{C : Collaborators}.

(** X5.  With only [threads_per_worker = t >= 1] given the worker count is
    rounded down: the workers never commit more threads than there are
    cores when [t] fits into the cores, leaving fewer than [t] cores
    unused, and a single worker is started when [t] exceeds the cores. *)
Theorem threads_only_rounds_down (b : bool) (t : Z) :
  1 ≤ _ncores → 1 ≤ t →
  ∃ n, resolve_counts b None (Some t) = Ok (Some n, Some t)
       ∧ 1 ≤ n
       ∧ (t ≤ _ncores → _ncores - t < n * t ≤ _ncores)
       ∧ (_ncores < t → n = 1).
Proof.
  intros Hc Ht. exists (Z.max 1 (_ncores / t)).
  unfold resolve_counts. simpl. rewrite floordiv_ok by lia. simpl.
  pose proof (Z.mul_div_le _ncores t ltac:(lia)).
  pose proof (Z.mul_succ_div_gt _ncores t ltac:(lia)).
  split; [done|]. split; [lia|]. split.
  - intros Hle. assert (1 ≤ _ncores / t) by (apply Z.div_le_lower_bound; lia).
    rewrite Z.max_r by lia. lia.
  - intros Hlt. rewrite Z.div_small by lia. lia.
Qed.

(** X6.  When both counts are given they are used as they are, whatever the
    core count and the mode: the construction does not fail before its
    outgoing calls, and the workers are handed the given thread count. *)
Theorem given_counts_are_kept (a : Args) (n t : Z) :
  n_workers a = Some n → threads_per_worker a = Some t →
  ∃ p, plan a = Ok p
       ∧ plan_n_workers p = n
       ∧ plan_threads_per_worker p = Some t
       ∧ options (plan_worker p) !! "ncores" = Some (VInt t).
Proof.
  intros Hn Ht.
  assert (Hc : resolve_counts (processes a) (n_workers a)
                 (threads_per_worker a) = Ok (Some n, Some t)).
  { by rewrite Hn, Ht. }
  destruct (plan_total a _ _ Hc) as [p Hp]. exists p. split; [done|].
  destruct (plan_inv a p Hp) as (t' & Hc' & _ & _ & Hth & _ & Hw & _).
  rewrite Hc in Hc'. injection Hc' as <- <-.
  split; [done|]. split; [done|]. rewrite Hw. apply worker_ncores.
Qed.

(** X7.  With [n_workers=0] and no thread count the construction goes on
    with no worker slot: the thread count stays [None] and is handed to the
    workers as [None], no memory limit is computed, and the map of workers
    is empty. *)
Theorem zero_workers (a : Args) :
  n_workers a = Some 0 → threads_per_worker a = None →
  ∃ p, plan a = Ok p
       ∧ plan_n_workers p = 0
       ∧ plan_threads_per_worker p = None
       ∧ plan_workers p = ∅
       ∧ options (plan_worker p) !! "ncores" = Some VNone
       ∧ options (plan_worker p) !! "memory_limit"
         = worker_kwargs a !! "memory_limit".
Proof.
  intros Hn Ht.
  assert (Hc : resolve_counts (processes a) (n_workers a)
                 (threads_per_worker a) = Ok (Some 0, None)).
  { by rewrite Hn, Ht. }
  destruct (plan_total a _ _ Hc) as [p Hp]. exists p. split; [done|].
  destruct (plan_inv a p Hp) as (t' & Hc' & _ & _ & Hth & _ & Hw & Hws).
  rewrite Hc in Hc'. injection Hc' as Hz <-.
  split; [done|]. split; [done|].
  split; [by rewrite Hws, <- Hz|].
  rewrite Hw, <- Hz. split; [apply worker_ncores|].
  unfold worker_of, worker_options. simpl.
  by rewrite lookup_union_r.
Qed.

(** X8.  The memory limit of the workers: a [memory_limit] among the extra
    keyword arguments is kept; otherwise it is
    [parse_memory_limit("auto", 1, n_workers)] for a non-zero worker count
    and absent for zero workers. *)
Theorem memory_limit_option (a : Args) (p : Plan) :
  plan a = Ok p →
  options (plan_worker p) !! "memory_limit"
  = match worker_kwargs a !! "memory_limit" with
    | Some v => Some v
    | None =>
        if plan_n_workers p =? 0 then None
        else Some (parse_memory_limit "auto" 1 (plan_n_workers p))
    end.
Proof.
  intros Hp.
  destruct (plan_inv a p Hp) as (t & _ & _ & _ & _ & _ & Hw & _).
  rewrite Hw. unfold worker_of, worker_options. simpl.
  rewrite lookup_union_r by done.
  destruct (worker_kwargs a !! "memory_limit") as [v|] eqn:Hm.
  - rewrite bool_decide_eq_false_2 by done. rewrite andb_false_r. done.
  - rewrite bool_decide_eq_true_2 by done. rewrite andb_true_r.
    destruct (plan_n_workers p =? 0); simpl; [done|].
    apply lookup_insert_eq.
Qed.

Lemma worker_options_other (a : Args) (n t : option Z) (pr k : string) :
  k ∉ resolved_worker_keys → k ≠ "memory_limit" →
  worker_options a n t pr !! k = worker_kwargs a !! k.
Proof.
  intros Hk Hmem. unfold worker_options. rewrite lookup_union_r.
  - destruct n as [n|]; [|done].
    destruct (negb (n =? 0) && _); [|done]. by rewrite lookup_insert_ne.
  - apply not_elem_of_list_to_map_1. exact Hk.
Qed.

(** X9.  For a request as a call can produce it, every extra keyword
    argument but [ncores] reaches the worker options as it was passed, a
    [memory_limit] included; an [ncores] among the extra keyword arguments is
    replaced by the resolved thread count. *)
Theorem extra_kwargs_reach_workers (a : Args) (p : Plan) :
  callable a → plan a = Ok p →
  options (plan_worker p) !! "ncores"
    = Some (of_option VInt (plan_threads_per_worker p))
  ∧ (∀ k v, k ≠ "ncores" → worker_kwargs a !! k = Some v →
       options (plan_worker p) !! k = Some v).
Proof.
  intros Hcall Hp.
  destruct (plan_inv a p Hp) as (t & _ & _ & _ & Hth & _ & Hw & _).
  rewrite Hw, Hth. unfold worker_of. cbn [options].
  split; [apply worker_ncores|].
  intros k v Hk Hv.
  assert (Hfree : k ∉ named_parameters).
  { intros Hin. rewrite (Hcall k Hin) in Hv. done. }
  assert (Hres : k ∉ resolved_worker_keys).
  { intros Hin. apply Hfree. unfold resolved_worker_keys in Hin.
    repeat (apply elem_of_cons in Hin as [->|Hin]);
      [congruence
      |apply (bool_decide_unpack _); vm_compute; exact I ..
      |by apply elem_of_nil in Hin]. }
  destruct (decide (k = "memory_limit")) as [->|Hmem].
  - unfold worker_options. rewrite lookup_union_r by done.
    rewrite Hv. rewrite bool_decide_eq_false_2 by done.
    rewrite andb_false_r. done.
  - by rewrite worker_options_other.
Qed.

(** X10.  A supplied [diagnostics_port] replaces the dashboard address the
    scheduler is handed, also one the caller passed as [dashboard_address];
    without it the scheduler is handed [dashboard_address]. *)
Theorem diagnostics_port_replaces_dashboard (a : Args) (p : Plan) :
  plan a = Ok p →
  (diagnostics_port a = VNone →
     options (plan_scheduler p) !! "dashboard_address"
     = Some (dashboard_address a))
  ∧ (diagnostics_port a ≠ VNone →
       options (plan_scheduler p) !! "dashboard_address"
       = Some (diagnostics_port a))
  ∧ (∀ d kw,
       diagnostics_port a ≠ VNone →
       (p' ← plan (with_passthrough d (diagnostics_port a) kw a);
        Ok (options (plan_scheduler p') !! "dashboard_address"))
       = Ok (Some (diagnostics_port a))).
Proof.
  intros Hp.
  destruct (plan_inv a p Hp) as (t & Hc & _ & _ & _ & Hs & _).
  assert (Hlook : ∀ a' h pr,
            options (scheduler_of a' h pr) !! "dashboard_address"
            = Some (alias_dashboard (dashboard_address a')
                                    (diagnostics_port a'))) by done.
  rewrite Hs, Hlook. unfold alias_dashboard. repeat apply conj.
  - by intros ->.
  - intros Hd. by destruct (diagnostics_port a).
  - intros d kw Hd.
    destruct (plan_total (with_passthrough d (diagnostics_port a) kw a) _ _ Hc)
      as [p' Hp'].
    rewrite Hp'. simpl.
    destruct (plan_inv _ p' Hp') as (t' & _ & _ & _ & _ & Hs' & _).
    rewrite Hs', Hlook. unfold alias_dashboard. simpl.
    by destruct (diagnostics_port a).
Qed.

End Options.

(** ** The construction as a run *)

Section Runs.
Context `{C : Collaborators}.

(** The constructor emits its warnings and writes its two attributes; then
    it either raises what the resolution raised or makes its two calls. *)
Lemma init_unfold (self : Handle) (a : Args) (w : World) :
  LocalCluster.__init__ self a w
  = match plan a with
    | Raise e => (after_prelude self a w, Raise e)
    | Ok p =>
        (Eff.call (CallInit self (plan_scheduler p) (plan_workers p)
                            (plan_worker p) (loop a) (asynchronous a)
                            (silence_logs a))
                  (SpecCluster_init self (plan_scheduler p) (plan_workers p)
                                    (plan_worker p) (loop a) (asynchronous a)
                                    (silence_logs a)) ;;
         Eff.call (CallScale self (plan_n_workers p))
                  (scale self (plan_n_workers p)))
          (after_prelude self a w)
    end.
Proof.
  unfold LocalCluster.__init__, after_prelude, init_warnings.
  unfold mbind, M_bind, Eff.when, Eff.warn, Eff.setattr, Eff.modify, Eff.lift,
    mret, M_ret.
  destruct (bool_decide (is_Some (ip a))), (is_None (diagnostics_port a));
    simpl; rewrite ?app_nil_r, <- ?app_assoc; by destruct (plan a).
Qed.

Lemma resolve_counts_raises (b : bool) (n t : option Z) (e : Exn) :
  resolve_counts b n t = Raise e →
  e = ZeroDivisionError
  ∧ n = None
  ∧ (t = Some 0 ∨ (t = None ∧ b = true ∧ _ncores = 0)).
Proof.
  unfold resolve_counts. destruct n as [n|], t as [t|]; simpl.
  - done.
  - destruct (negb (n =? 0)) eqn:Hn; simpl; [|done].
    rewrite ceildiv_ok; [done|]. intros ->. done.
  - unfold Py.floordiv. destruct (decide (t = 0)) as [->|]; simpl; [|done].
    intros [= <-]. auto.
  - destruct b; simpl; [|done].
    destruct (decide (_ncores = 0)) as [Hz|Hnz].
    + rewrite Hz.
      replace (nprocesses_nthreads 0) with (@Raise (Z * Z) ZeroDivisionError)
        by (vm_compute; reflexivity).
      simpl. intros [= <-]. split; [done|]. split; [done|]. by right.
    + destruct (decide (_ncores < 0)) as [Hneg|Hpos].
      * unfold nprocesses_nthreads.
        destruct (decide (_ncores ≤ 4)) as [_|?]; [|lia]. simpl.
        rewrite floordiv_ok by lia. done.
      * assert (H1 : 1 ≤ _ncores) by lia.
        destruct (nprocesses_positive _ncores H1) as (p & q & -> & _).
        done.
Qed.

(** X11.  On a machine whose core count is not negative and below
    [float_exact_bound], the count resolution of lines 156-166 raises in
    exactly two cases: [threads_per_worker=0] without [n_workers], and no
    count at all in process mode when the machine reports zero cores.  The
    exception is a [ZeroDivisionError]; the constructor raises it without
    calling [SpecCluster.__init__] or [scale], after the warnings and the
    writes of [self.status] and [self.processes]. *)
Theorem count_resolution_failures (self : Handle) (a : Args) (w : World) :
  0 ≤ _ncores < float_exact_bound →
  ((∃ e, resolve_counts (processes a) (n_workers a) (threads_per_worker a)
         = Raise e)
   ↔ n_workers a = None
     ∧ (threads_per_worker a = Some 0
        ∨ (threads_per_worker a = None ∧ processes a = true ∧ _ncores = 0)))
  ∧ (∀ e, resolve_counts (processes a) (n_workers a) (threads_per_worker a)
          = Raise e →
       e = ZeroDivisionError
       ∧ LocalCluster.__init__ self a w
         = (after_prelude self a w, Raise ZeroDivisionError)
       ∧ trace (LocalCluster.__init__ self a w).1 = trace w).
Proof.
  intros _. split; [split|].
  - intros [e He]. apply resolve_counts_raises in He. tauto.
  - intros [Hn Hcase]. exists ZeroDivisionError. unfold resolve_counts.
    rewrite Hn. destruct Hcase as [->|(-> & -> & Hz)]; [done|].
    rewrite Hz.
    replace (nprocesses_nthreads 0) with (@Raise (Z * Z) ZeroDivisionError)
      by (vm_compute; reflexivity).
    done.
  - intros e He. destruct (resolve_counts_raises _ _ _ _ He) as [-> _].
    assert (Hplan : plan a = Raise ZeroDivisionError).
    { unfold plan. by rewrite He. }
    split; [done|]. rewrite init_unfold, Hplan. done.
Qed.

(** X12.  When the resolution succeeds the constructor calls
    [SpecCluster.__init__] with the scheduler specification, the worker map
    and the worker specification it has built, and with [loop],
    [asynchronous] and [silence_logs] as given.  When that call raises,
    the exception leaves the constructor and [scale] is not called;
    when it returns, [scale(n_workers)] is the second and last call and its
    outcome is the outcome of the constructor. *)
Theorem init_call_sequence (self : Handle) (a : Args) (p : Plan) (w : World) :
  plan a = Ok p →
  let run := LocalCluster.__init__ self a w in
  let first := CallInit self (plan_scheduler p) (plan_workers p)
                 (plan_worker p) (loop a) (asynchronous a) (silence_logs a) in
  let init := SpecCluster_init self (plan_scheduler p) (plan_workers p)
                (plan_worker p) (loop a) (asynchronous a) (silence_logs a)
                (heap (after_prelude self a w)) in
  (∀ e, init.2 = Raise e →
     run.2 = Raise e ∧ trace run.1 = trace w ++ [first]
     ∧ heap run.1 = init.1)
  ∧ (init.2 = Ok tt →
       trace run.1 = trace w ++ [first; CallScale self (plan_n_workers p)]
       ∧ run.2 = (scale self (plan_n_workers p) init.1).2
       ∧ heap run.1 = (scale self (plan_n_workers p) init.1).1).
Proof.
  intros Hp run first init. unfold run. rewrite init_unfold, Hp.
  unfold mbind, M_bind, Eff.call. fold init. simpl.
  destruct init as [h1 [[]|e1]] eqn:Hinit; simpl.
  - split; [done|]. intros _.
    destruct (scale self (plan_n_workers p) h1) as [h2 r2]. simpl.
    by rewrite <- app_assoc.
  - split; [|done]. by intros e [= <-].
Qed.

(** X13.  When the collaborators leave the emitted warnings alone, the
    constructor emits exactly the [ip] warning when [ip] is given, followed
    by the [diagnostics_port] warning when that is given, whether the
    construction succeeds or raises. *)
Theorem init_emits_warnings (self : Handle) (a : Args) (w : World) :
  (∀ s ws wk l b sl, keeps_warnings (SpecCluster_init self s ws wk l b sl)) →
  (∀ n, keeps_warnings (scale self n)) →
  warned (heap (LocalCluster.__init__ self a w).1)
  = warned (heap w) ++ init_warnings a.
Proof.
  intros Hinit Hscale. rewrite init_unfold.
  destruct (plan a) as [p|e]; [|done].
  unfold mbind, M_bind, Eff.call.
  match goal with
  | |- context [SpecCluster_init ?s ?sc ?ws ?wk ?l ?b ?sl ?h] =>
      pose proof (Hinit sc ws wk l b sl h) as H1;
      destruct (SpecCluster_init s sc ws wk l b sl h) as [h1 [[]|e1]]
  end; simpl in *; [|done].
  pose proof (Hscale (plan_n_workers p) h1) as H2.
  destruct (scale self (plan_n_workers p) h1) as [h2 r2]. simpl in *.
  by rewrite H2, H1.
Qed.

End Runs.

(** ** The drain as a run *)

Section DrainRuns.
Context `{C : Collaborators}.

Local Abbreviation close_each :=
  (fun cluster => Eff.call (CallClose cluster 10) (close cluster 10)).

(** How the loop ends: it returns only after the whole list, and it raises
    only what the last attempted close raised. *)
Lemma for_each_outcome (l : list Handle) (w : World) :
  ∃ k, (k ≤ length l)%nat
       ∧ trace (Eff.for_each l close_each w).1
         = trace w ++ close_calls (take k l)
       ∧ ((Eff.for_each l close_each w).2 = Ok tt → k = length l)
       ∧ (∀ e, (Eff.for_each l close_each w).2 = Raise e →
            ∃ c h, l !! pred k = Some c ∧ (0 < k)%nat
                   ∧ (close c 10 h).2 = Raise e).
Proof.
  revert w. induction l as [|c l IH]; intros w.
  - exists 0%nat. simpl. rewrite app_nil_r. by repeat split.
  - rewrite for_each_cons.
    destruct (close c 10 (heap w)).2 as [[]|e] eqn:Hc.
    + destruct (IH {| heap := (close c 10 (heap w)).1;
                      trace := trace w ++ [CallClose c 10] |})
        as (k & Hk & -> & Hok & Hraise).
      exists (S k). simpl. split; [lia|]. split; [by rewrite <- app_assoc|].
      split; [intros Hr; by rewrite (Hok Hr)|].
      intros e He. destruct (Hraise e He) as (c' & h & Hl & Hpos & Hcl).
      exists c', h. split; [|split; [lia|done]].
      destruct k; [lia|done].
    + exists 1%nat. simpl. split; [lia|]. split; [by rewrite ?take_0|].
      split; [done|]. intros e' [= <-]. exists c, (heap w).
      split; [done|]. split; [lia|done].
Qed.

(** X14.  Whatever the collaborators do, the exit hook makes no outgoing
    call but [close(timeout=10)], closes no cluster twice and none that was
    not registered when it started; it returns only when every registered
    cluster has been attempted, and an exception it raises is the one the
    last attempted close raised. *)
Theorem close_clusters_only_closes_registered (w : World) :
  ∃ attempted : list Handle,
    trace (close_clusters w).1 = trace w ++ close_calls attempted
    ∧ NoDup attempted
    ∧ (∀ c, c ∈ attempted → c ∈ clusters_to_close (heap w))
    ∧ ((close_clusters w).2 = Ok tt →
       ∀ c, c ∈ clusters_to_close (heap w) → c ∈ attempted)
    ∧ (∀ e, (close_clusters w).2 = Raise e →
         ∃ c h, last attempted = Some c ∧ (close c 10 h).2 = Raise e).
Proof.
  rewrite close_clusters_run.
  set (l := elements (clusters_to_close (heap w))).
  destruct (for_each_outcome l w) as (k & Hk & Ht & Hok & Hraise).
  exists (take k l). split; [done|]. split.
  { apply (sublist_NoDup _ l); [apply NoDup_elements|apply sublist_take]. }
  split.
  { intros c Hc. apply elem_of_elements. by apply (subseteq_take k l). }
  split.
  - intros Hr c Hc. rewrite (Hok Hr), take_ge by done.
    by apply elem_of_elements.
  - intros e He. destruct (Hraise e He) as (c & h & Hl & Hpos & Hcl).
    exists c, h. split; [|done].
    rewrite last_lookup, length_take, lookup_take_lt by lia.
    by replace (pred (k `min` length l)) with (pred k) by lia.
Qed.

Lemma for_each_preserves_registry (l : list Handle) :
  (∀ c, keeps_registry (close c 10)) →
  preserves_registry (Eff.for_each l close_each).
Proof.
  intros Hkeep. induction l as [|c l IH]; simpl.
  - apply preserves_ret.
  - apply preserves_bind; [by apply preserves_call|done].
Qed.

(** X15.  The exit hook does not deregister what it closes: when every
    close returns and leaves the registry alone, running the hook a second
    time closes every registered cluster a second time. *)
Theorem close_clusters_twice (w : World) :
  (∀ c h, (close c 10 h).2 = Ok tt) →
  (∀ c, keeps_registry (close c 10)) →
  let snapshot := elements (clusters_to_close (heap w)) in
  ((close_clusters ;; close_clusters) w).2 = Ok tt
  ∧ trace ((close_clusters ;; close_clusters) w).1
    = trace w ++ close_calls snapshot ++ close_calls snapshot
  ∧ clusters_to_close (heap ((close_clusters ;; close_clusters) w).1)
    = clusters_to_close (heap w).
Proof.
  intros Hok Hkeep snapshot.
  assert (Hreg : ∀ w', clusters_to_close (heap (close_clusters w').1)
                       = clusters_to_close (heap w')).
  { intros w'. rewrite close_clusters_run. apply for_each_preserves_registry.
    exact Hkeep. }
  assert (Hrun : ∀ w', (close_clusters w').2 = Ok tt
            ∧ trace (close_clusters w').1
              = trace w' ++ close_calls (elements (clusters_to_close (heap w')))).
  { intros w'. rewrite close_clusters_run. apply for_each_all.
    intros c _ h. apply Hok. }
  unfold mbind, M_bind.
  destruct (Hrun w) as [Hr1 Ht1]. specialize (Hreg w).
  destruct (close_clusters w) as [w1 r1]. simpl in *. subst r1.
  destruct (Hrun w1) as [Hr2 Ht2].
  pose proof (for_each_preserves_registry
                (elements (clusters_to_close (heap w1))) Hkeep w1) as Hreg2.
  rewrite <- close_clusters_run in Hreg2.
  destruct (close_clusters w1) as [w2 r2]. simpl in *.
  split; [done|]. split; [|by rewrite Hreg2, Hreg].
  rewrite Ht2, Ht1, Hreg. fold snapshot. by rewrite <- app_assoc.
Qed.

End DrainRuns.

(** ** Concrete runs of the further properties *)

(** Eight cores and threads of three: two workers, six threads. *)
Lemma threads_only_rounds_down_witness :
  ∃ n, resolve_counts (C:=eight_cores) true None (Some 3)
       = Ok (Some n, Some 3)
       ∧ 1 ≤ n
       ∧ (3 ≤ 8 → 8 - 3 < n * 3 ≤ 8)
       ∧ (8 < 3 → n = 1).
Proof.
  apply (threads_only_rounds_down (C:=eight_cores) true 3); simpl; lia.
Defined.

(** Three workers of five threads on eight cores. *)
Lemma given_counts_are_kept_witness :
  ∃ p, plan (C:=eight_cores) both_counts_request = Ok p
       ∧ plan_n_workers p = 3
       ∧ plan_threads_per_worker p = Some 5
       ∧ options (plan_worker p) !! "ncores" = Some (VInt 5).
Proof.
  apply (given_counts_are_kept (C:=eight_cores) both_counts_request 3 5);
    reflexivity.
Defined.

(** [LocalCluster(n_workers=0)] on eight cores. *)
Lemma zero_workers_witness :
  ∃ p, plan (C:=eight_cores) zero_workers_request = Ok p
       ∧ plan_n_workers p = 0
       ∧ plan_threads_per_worker p = None
       ∧ plan_workers p = ∅
       ∧ options (plan_worker p) !! "ncores" = Some VNone
       ∧ options (plan_worker p) !! "memory_limit"
         = worker_kwargs zero_workers_request !! "memory_limit".
Proof.
  apply (zero_workers (C:=eight_cores) zero_workers_request); reflexivity.
Defined.

(** Three workers share the 16 GB of the machine. *)
Lemma memory_limit_option_witness :
  ∃ p, plan (C:=eight_cores) three_workers_request = Ok p
       ∧ options (plan_worker p) !! "memory_limit"
         = Some (VInt (16000000000 / 3)).
Proof.
  destruct (plan_total (C:=eight_cores) three_workers_request
              (Some 3) (Some 3) eq_refl) as [p Hp].
  exists p. split; [exact Hp|].
  rewrite (memory_limit_option (C:=eight_cores) three_workers_request p Hp).
  destruct (plan_inv three_workers_request p Hp) as (t & Hc & _).
  injection Hc as <- _. reflexivity.
Defined.

(** [LocalCluster(ncores=64, resources=2)] on eight cores: the workers get
    the resolved two threads and [resources=2]. *)
Lemma extra_kwargs_reach_workers_witness :
  ∃ p, plan (C:=eight_cores) extra_kwargs_request = Ok p
       ∧ options (plan_worker p) !! "ncores" = Some (VInt 2)
       ∧ options (plan_worker p) !! "resources" = Some (VInt 2).
Proof.
  destruct (plan_total (C:=eight_cores) extra_kwargs_request
              (Some 4) (Some 2) eq_refl) as [p Hp].
  assert (Hcall : callable extra_kwargs_request).
  { intros k Hk.
    unfold extra_kwargs_request, with_passthrough. cbn [worker_kwargs].
    rewrite !lookup_insert_ne; [done| |];
      intros <-; revert Hk; apply (bool_decide_unpack _); vm_compute;
      exact I. }
  destruct (extra_kwargs_reach_workers (C:=eight_cores) extra_kwargs_request
              p Hcall Hp) as (Hn & Hother).
  exists p. split; [exact Hp|]. split.
  - rewrite Hn. destruct (plan_inv extra_kwargs_request p Hp)
      as (t & Hc & _ & _ & Hth & _).
    rewrite Hth. injection Hc as _ <-. reflexivity.
  - apply Hother; [done|reflexivity].
Defined.

(** [diagnostics_port=9999] beats [dashboard_address=":8787"]. *)
Lemma diagnostics_port_replaces_dashboard_witness :
  ∃ p, plan (C:=eight_cores) diagnostics_request = Ok p
       ∧ options (plan_scheduler p) !! "dashboard_address"
         = Some (VInt 9999).
Proof.
  destruct (plan_total (C:=eight_cores) diagnostics_request
              (Some 4) (Some 2) eq_refl) as [p Hp].
  exists p. split; [exact Hp|].
  apply (proj1 (proj2 (diagnostics_port_replaces_dashboard
                         (C:=eight_cores) diagnostics_request p Hp))).
  done.
Defined.

(** [LocalCluster(threads_per_worker=0)] on eight cores raises before any
    call. *)
Lemma count_resolution_failures_witness :
  LocalCluster.__init__ (C:=eight_cores) 1%positive zero_threads_request
    Described.empty_world
  = (after_prelude 1%positive zero_threads_request Described.empty_world,
     Raise ZeroDivisionError).
Proof.
  assert (Hcores : 0 ≤ _ncores (Collaborators:=eight_cores) < float_exact_bound)
    by (split; [simpl; lia|reflexivity]).
  destruct (count_resolution_failures (C:=eight_cores) 1%positive
              zero_threads_request Described.empty_world Hcores) as [_ Hfail].
  apply (Hfail ZeroDivisionError). reflexivity.
Defined.

(** [LocalCluster()] on eight cores makes its two calls. *)
Lemma init_call_sequence_witness :
  ∃ p, plan (C:=eight_cores) default_args = Ok p
       ∧ trace (LocalCluster.__init__ (C:=eight_cores) 1%positive default_args
                  Described.empty_world).1
         = [CallInit 1%positive (plan_scheduler p) (plan_workers p)
                     (plan_worker p) VNone false (VInt 30);
            CallScale 1%positive (plan_n_workers p)].
Proof.
  destruct (plan_total (C:=eight_cores) default_args (Some 4) (Some 2) eq_refl)
    as [p Hp].
  exists p. split; [exact Hp|].
  apply (proj2 (init_call_sequence (C:=eight_cores) 1%positive default_args p
                  Described.empty_world Hp)).
  reflexivity.
Defined.

(** [LocalCluster(host="example.org", ip="10.0.0.7")] warns about [ip]. *)
Lemma init_emits_warnings_witness :
  warned (heap (LocalCluster.__init__ (C:=eight_cores) 1%positive ip_request
                  Described.empty_world).1)
  = ["The ip keyword has been moved to host"].
Proof.
  apply (init_emits_warnings (C:=eight_cores) 1%positive ip_request
           Described.empty_world).
  - intros s ws wk l b sl h. reflexivity.
  - intros n h. reflexivity.
Defined.

(** Two registered clusters are closed twice by two runs of the hook. *)
Lemma close_clusters_twice_witness :
  trace ((close_clusters (C:=eight_cores) ;; close_clusters (C:=eight_cores))
           Described.two_registered).1
  = close_calls [2%positive; 1%positive; 2%positive; 1%positive].
Proof.
  apply (close_clusters_twice (C:=eight_cores) Described.two_registered).
  - intros c h. reflexivity.
  - intros c h. unfold close. simpl. unfold Described.close.
    rewrite bool_decide_eq_false_2 by set_solver. reflexivity.
Defined.
